(** * timed-task: a self-correcting periodic task runner

    A shallow embedding of [timed-task.h]: the [StatisticsCollector]
    class, the body of the worker loop of [TimerTask] and the controller
    operations [TimerTask::init], [stop], [restart] and [setRate].

    Conventions.
    - [uint64_t] and [size_t] (LP64) values are integers in [0, 2^64);
      every unsigned operation is written with its reduction modulo 2^64.
    - [chrono::nanoseconds] and [time_point_ns] carry a signed 64-bit
      count.  Signed overflow is undefined behaviour in C++, so signed
      operations are checked and yield a [Fault] outside the range.
    - [double] is IEEE-754 binary64, taken from the [SpecFloat] executable
      specification (precision 53, emax 1024).
    - What the program writes to [cout] and what it does to its worker
      thread is collected as a list of [event]s. *)

From Stdlib Require Import ZArith List Bool String Lia.
From Stdlib Require Import SpecFloat.
Import ListNotations.
Open Scope Z_scope.

(** ** Outcomes of running a piece of the program *)

Inductive fault : Type :=
| DivisionByZero      (* integer division or remainder by zero *)
| SignedOverflow      (* a signed 64-bit result out of range *)
| JoinNeverReturns    (* [workerThread_.join()] blocks for ever *)
| Terminate.          (* [std::terminate]: a joinable thread assigned to or
                         destroyed, or a pure virtual function called *)

Inductive outcome (A : Type) : Type :=
| Ok (a : A)
| Fault (f : fault).

Arguments Ok {A} a.
Arguments Fault {A} f.

Definition bind {A B : Type} (m : outcome A) (k : A -> outcome B) : outcome B :=
  match m with
  | Ok a => k a
  | Fault f => Fault f
  end.

Notation "x <- m ;; k" := (bind m (fun x => k))
  (at level 61, m at next level, right associativity).

Notation "' pat <- m ;; k" := (bind m (fun x => match x with pat => k end))
  (at level 61, pat pattern, m at next level, right associativity).

(** ** Machine integers *)

Definition two64 : Z := 2 ^ 64.
Definition uint64_max : Z := two64 - 1.
Definition int64_min : Z := - 2 ^ 63.
Definition int64_max : Z := 2 ^ 63 - 1.

(** Reduction of an integer into [uint64_t]; also the conversion of a
    signed 64-bit value to [uint64_t]. *)
Definition wrap64 (z : Z) : Z := z mod two64.

Definition in_uint64 (z : Z) : bool := (0 <=? z) && (z <=? uint64_max).
Definition in_int64 (z : Z) : bool := (int64_min <=? z) && (z <=? int64_max).

(** Conversion of a [uint64_t] value to the signed 64-bit representation
    of [chrono::nanoseconds] (two's complement). *)
Definition to_int64 (u : Z) : Z := if u <=? int64_max then u else u - two64.

(** A signed result: defined only inside the 64-bit range. *)
Definition checked (z : Z) : outcome Z :=
  if in_int64 z then Ok z else Fault SignedOverflow.

(** ** Durations: [chrono::nanoseconds] arithmetic *)

Definition dur_sub (a b : Z) : outcome Z := checked (a - b).

Definition dur_abs (a : Z) : outcome Z := checked (Z.abs a).

(** [a % b] on signed counts: truncated remainder. *)
Definition dur_rem (a b : Z) : outcome Z :=
  if b =? 0 then Fault DivisionByZero
  else if (a =? int64_min) && (b =? -1) then Fault SignedOverflow
  else Ok (Z.rem a b).

(** ** binary64 *)

Definition double : Type := spec_float.

(** Conversion of an integer to [double], rounding to nearest even. *)
Definition double_of_Z (z : Z) : double := binary_normalize 53 1024 z 0 false.

Definition double_mul (x y : double) : double := SFmul 53 1024 x y.
Definition double_div (x y : double) : double := SFdiv 53 1024 x y.
Definition double_ltb (x y : double) : bool := SFltb x y.

(** The literal [1.05]: 0x1.0cccccccccccdp+0. *)
Definition d1_05 : double := S754_finite false 4728779608739021 (-52).

(** ** TimeUnit *)

Inductive TimeUnit : Type :=
| nanoseconds | microseconds | milliseconds | seconds | minutes | hours.

Definition unit_value (u : TimeUnit) : Z :=
  match u with
  | nanoseconds => 1
  | microseconds => 1 * 1000
  | milliseconds => 1 * 1000 * 1000
  | seconds => 1 * 1000 * 1000 * 1000
  | minutes => 1 * 1000 * 1000 * 1000 * 60
  | hours => 1 * 1000 * 1000 * 1000 * 60 * 60
  end.

(** ** StatisticsCollector *)

Record StatisticsCollector : Type := mkCollector {
  samples : Z;
  acummulation : Z;
  compensation : Z;
  maxVariance : Z;
  minVariance : Z;
  toleraceExcessionCount : Z
}.

(** The default member initialisers. *)
Definition StatisticsCollector_init : StatisticsCollector :=
  {| samples := 0;
     acummulation := 0;
     compensation := 0;
     maxVariance := 0;
     minVariance := uint64_max;
     toleraceExcessionCount := 0 |}.

(** [compensation += amountSlept.count()]: the signed count is converted
    to [uint64_t] and added modulo 2^64. *)
Definition calcSleepCompensation (c : StatisticsCollector) (amountSlept : Z)
  : StatisticsCollector :=
  {| samples := samples c;
     acummulation := acummulation c;
     compensation := wrap64 (compensation c + wrap64 amountSlept);
     maxVariance := maxVariance c;
     minVariance := minVariance c;
     toleraceExcessionCount := toleraceExcessionCount c |}.

Definition accumulate (c : StatisticsCollector) (amount : Z) : StatisticsCollector :=
  {| samples := wrap64 (samples c + 1);
     acummulation := wrap64 (acummulation c + amount);
     compensation := compensation c;
     maxVariance := maxVariance c;
     minVariance := minVariance c;
     toleraceExcessionCount := toleraceExcessionCount c |}.

Definition considerVariance (c : StatisticsCollector) (errorSample : Z)
  : StatisticsCollector :=
  {| samples := samples c;
     acummulation := acummulation c;
     compensation := compensation c;
     maxVariance := Z.max errorSample (maxVariance c);
     minVariance := Z.min errorSample (minVariance c);
     toleraceExcessionCount := toleraceExcessionCount c |}.

(** [execTime > (expected * 1.05)]: both sides are durations over [double];
    [a > b] is [b < a]. *)
Definition exceedsTolerance (execTime expected : Z) : bool :=
  double_ltb (double_mul (double_of_Z expected) d1_05) (double_of_Z execTime).

Definition countExcession (c : StatisticsCollector) : StatisticsCollector :=
  {| samples := samples c;
     acummulation := acummulation c;
     compensation := compensation c;
     maxVariance := maxVariance c;
     minVariance := minVariance c;
     toleraceExcessionCount := wrap64 (toleraceExcessionCount c + 1) |}.

Definition calcExecTimeError (c : StatisticsCollector) (start end_ expected : Z)
  : outcome StatisticsCollector :=
  execTime <- dur_sub end_ start ;;
  diff <- dur_sub execTime expected ;;
  magnitude <- dur_abs diff ;;
  let error := wrap64 magnitude in
  let c1 := accumulate c error in
  let c2 := considerVariance c1 error in
  Ok (if exceedsTolerance execTime expected then countExcession c2 else c2).

(** What [printResults] sends to [cout]: the values behind the six lines
    of the report (the text layout is not modelled). *)
Record report : Type := mkReport {
  rep_samples : Z;
  rep_deviation : double;
  rep_compensation : double;
  rep_maxVariance : double;
  rep_minVariance : double;
  rep_unitName : string;
  rep_toleranceExceeded : Z
}.

Definition unitName (u : TimeUnit) : string :=
  match u with
  | nanoseconds => "nanoseconds"
  | microseconds => "microseconds"
  | milliseconds => "milliseconds"
  | seconds => "seconds"
  | minutes => "minutes"
  | hours => "hours"
  end.

(** Unsigned division: undefined for a zero divisor. *)
Definition udiv (a b : Z) : outcome Z :=
  if b =? 0 then Fault DivisionByZero else Ok (a / b).

Definition convert (ns : Z) (samplingUnit : TimeUnit) : double :=
  double_div (double_of_Z ns) (double_of_Z (unit_value samplingUnit)).

Definition printResults (c : StatisticsCollector) (samplingUnit : TimeUnit)
  : outcome report :=
  deviation_average_ns <- udiv (acummulation c) (samples c) ;;
  compensation_average_ns <- udiv (compensation c) (samples c) ;;
  Ok {| rep_samples := samples c;
        rep_deviation := convert deviation_average_ns samplingUnit;
        rep_compensation := convert compensation_average_ns samplingUnit;
        rep_maxVariance := convert (maxVariance c) samplingUnit;
        rep_minVariance := convert (minVariance c) samplingUnit;
        rep_unitName := unitName samplingUnit;
        rep_toleranceExceeded := toleraceExcessionCount c |}.

(** ** The worker loop of [TimerTask] *)

(** What the program does that can be observed from outside. *)
Inductive event : Type :=
| EvSpawn                      (* a worker thread is created *)
| EvNotify                     (* [cv_.notify_one()] *)
| EvJoin                       (* [workerThread_.join()] returned *)
| EvAction                     (* [doAction()] was called *)
| EvPrintSleep (sleepTime : Z) (* [cout << sleepTime.count() << endl] *)
| EvReport (r : report).       (* the output of [printResults] *)

(** [std::chrono::nanoseconds(ratio_ * rate_)]: the product is taken in
    [uint64_t], then converted to the signed count. *)
Definition full_sleep_time (ratio : TimeUnit) (rate : Z) : Z :=
  to_int64 (wrap64 (unit_value ratio * rate)).

(** The sleep time of one cycle, from the period and the time the action
    took ([stop - start]). *)
Definition computeSleepTime (full_sleep_time_nanos elapsed : Z) : outcome Z :=
  sleepTime <- dur_sub full_sleep_time_nanos elapsed ;;
  sleepTime <- (if sleepTime <? 0
                then a <- dur_abs sleepTime ;;
                     r <- dur_rem a full_sleep_time_nanos ;;
                     dur_sub full_sleep_time_nanos r
                else Ok sleepTime) ;;
  dur_sub sleepTime 50000.

(** From the top of the loop body to the call of [wait_for]. *)
Definition cycle_begin (full_sleep_time_nanos start stop : Z)
  : outcome (Z * list event) :=
  elapsed <- dur_sub stop start ;;
  sleepTime <- computeSleepTime full_sleep_time_nanos elapsed ;;
  Ok (sleepTime, [EvAction; EvPrintSleep sleepTime]).

(** After [wait_for] returned [false]: the two calls on the collector;
    [now] is the value of the second [Clock::now()]. *)
Definition cycle_end (c : StatisticsCollector)
  (full_sleep_time_nanos start now sleepTime : Z) : outcome StatisticsCollector :=
  c1 <- calcExecTimeError c start now full_sleep_time_nanos ;;
  Ok (calcSleepCompensation c1 sleepTime).

Inductive cycle_result : Type :=
| Break
| Continue (c : StatisticsCollector).

(** One iteration of [for (;;)].  [start], [stop] and [now] are the three
    readings of the clock and [cancelled] is what [wait_for] returns
    (the value of [!running_] when the wait ends). *)
Definition cycle (c : StatisticsCollector) (full_sleep_time_nanos : Z)
  (start stop now : Z) (cancelled : bool) : outcome (cycle_result * list event) :=
  '(sleepTime, evs) <- cycle_begin full_sleep_time_nanos start stop ;;
  if cancelled then Ok (Break, evs)
  else c' <- cycle_end c full_sleep_time_nanos start now sleepTime ;;
       Ok (Continue c', evs).

(** ** TimerTask *)

(** Where the worker thread of a [TimerTask] is. *)
Inductive worker : Type :=
| NoThread                                  (* [workerThread_] is not joinable *)
| Spawned                                   (* created, the lambda not yet entered *)
| AtLoopHead (full_sleep_time_nanos : Z)    (* in the loop, before [wait_for] *)
| Waiting (full_sleep_time_nanos start sleepTime : Z). (* inside [wait_for] *)

Record TimerTask : Type := mkTimerTask {
  rate_ : Z;
  ratio_ : TimeUnit;
  collector : StatisticsCollector;
  statisticsEnabled : bool;
  running_ : bool;
  workerThread_ : worker
}.

Definition joinable (w : worker) : bool :=
  match w with
  | NoThread => false
  | _ => true
  end.

Definition with_worker (t : TimerTask) (r : bool) (w : worker) : TimerTask :=
  {| rate_ := rate_ t;
     ratio_ := ratio_ t;
     collector := collector t;
     statisticsEnabled := statisticsEnabled t;
     running_ := r;
     workerThread_ := w |}.

Definition with_rate (t : TimerTask) (rate : Z) (unit : TimeUnit) : TimerTask :=
  {| rate_ := rate;
     ratio_ := unit;
     collector := collector t;
     statisticsEnabled := statisticsEnabled t;
     running_ := running_ t;
     workerThread_ := workerThread_ t |}.

Definition with_collector (t : TimerTask) (c : StatisticsCollector) (w : worker)
  : TimerTask :=
  {| rate_ := rate_ t;
     ratio_ := ratio_ t;
     collector := c;
     statisticsEnabled := statisticsEnabled t;
     running_ := running_ t;
     workerThread_ := w |}.

(** [init]: a thread is created when [rate_ != 0]; its body has not run
    yet.  Assigning to a joinable [std::thread] calls [std::terminate]. *)
Definition init (t : TimerTask) : outcome (TimerTask * list event) :=
  if rate_ t =? 0 then Ok (t, [])
  else if joinable (workerThread_ t) then Fault Terminate
  else Ok (with_worker t (running_ t) Spawned, [EvSpawn]).

(** The first part of [stop]: [running_ = false], [notify_one], [join].
    The worker leaves its loop at [wait_for]: at once when it is waiting,
    and after the action in flight (whose clock readings are [inflight])
    when it is not.  A worker that has not yet executed [running_ = true]
    overwrites the flag afterwards and never leaves its loop. *)
Definition stop_worker (inflight : Z * Z) (t : TimerTask)
  : outcome (TimerTask * list event) :=
  match workerThread_ t with
  | NoThread => Ok (t, [])
  | Spawned => Fault JoinNeverReturns
  | AtLoopHead full =>
      '(_, evs) <- cycle_begin full (fst inflight) (snd inflight) ;;
      Ok (with_worker t false NoThread, [EvNotify] ++ evs ++ [EvJoin])
  | Waiting _ _ _ => Ok (with_worker t false NoThread, [EvNotify; EvJoin])
  end.

Definition stop (inflight : Z * Z) (t : TimerTask)
  : outcome (TimerTask * list event) :=
  '(t1, evs) <- stop_worker inflight t ;;
  if statisticsEnabled t1
  then r <- printResults (collector t1) milliseconds ;;
       Ok (t1, evs ++ [EvReport r])
  else Ok (t1, evs).

Definition restart (inflight : Z * Z) (t : TimerTask)
  : outcome (TimerTask * list event) :=
  '(t1, evs1) <- stop inflight t ;;
  '(t2, evs2) <- init t1 ;;
  Ok (t2, evs1 ++ evs2).

Definition setRate (rate : Z) (unit : TimeUnit) (imediate : bool)
  (inflight : Z * Z) (t : TimerTask) : outcome (TimerTask * list event) :=
  let t1 := with_rate t rate unit in
  if imediate then restart inflight t1 else Ok (t1, []).

(** The constructor. *)
Definition TimerTask_new (rate : Z) (unit : TimeUnit) (enableStatistics : bool)
  : outcome (TimerTask * list event) :=
  init {| rate_ := rate;
          ratio_ := unit;
          collector := StatisticsCollector_init;
          statisticsEnabled := enableStatistics;
          running_ := false;
          workerThread_ := NoThread |}.

(** *** Steps of the worker thread *)

(** The worker enters the lambda: [running_ = true] and the period is
    computed once from the current [ratio_] and [rate_]. *)
Definition worker_begin (t : TimerTask) : option (outcome (TimerTask * list event)) :=
  match workerThread_ t with
  | Spawned =>
      Some (Ok (with_worker t true (AtLoopHead (full_sleep_time (ratio_ t) (rate_ t))), []))
  | _ => None
  end.

Definition worker_action (start stop_ : Z) (t : TimerTask)
  : option (outcome (TimerTask * list event)) :=
  match workerThread_ t with
  | AtLoopHead full =>
      Some ('(sleepTime, evs) <- cycle_begin full start stop_ ;;
            Ok (with_worker t (running_ t) (Waiting full start sleepTime), evs))
  | _ => None
  end.

(** [wait_for] times out with [running_] still set. *)
Definition worker_timeout (now : Z) (t : TimerTask)
  : option (outcome (TimerTask * list event)) :=
  match workerThread_ t with
  | Waiting full start sleepTime =>
      if running_ t
      then Some (c <- cycle_end (collector t) full start now sleepTime ;;
                 Ok (with_collector t c (AtLoopHead full), []))
      else None
  | _ => None
  end.

(** *** Histories of one instance *)

Inductive op : Type :=
| OpStop (inflight : Z * Z)
| OpSetRate (rate : Z) (unit : TimeUnit) (imediate : bool) (inflight : Z * Z)
| WorkerBegin
| WorkerAction (start stop_ : Z)
| WorkerTimeout (now : Z).

(** [None]: the step cannot happen in this state. *)
Definition step (o : op) (t : TimerTask) : option (outcome (TimerTask * list event)) :=
  match o with
  | OpStop inflight => Some (stop inflight t)
  | OpSetRate rate unit imediate inflight => Some (setRate rate unit imediate inflight t)
  | WorkerBegin => worker_begin t
  | WorkerAction start stop_ => worker_action start stop_ t
  | WorkerTimeout now => worker_timeout now t
  end.

Fixpoint run (ops : list op) (t : TimerTask) (out : list event)
  : option (outcome (TimerTask * list event)) :=
  match ops with
  | [] => Some (Ok (t, out))
  | o :: ops' =>
      match step o t with
      | None => None
      | Some (Fault f) => Some (Fault f)
      | Some (Ok (t', evs)) => run ops' t' (out ++ evs)
      end
  end.

(** A history that starts with the constructor. *)
Definition history (rate : Z) (unit : TimeUnit) (enableStatistics : bool)
  (ops : list op) : option (outcome (TimerTask * list event)) :=
  match TimerTask_new rate unit enableStatistics with
  | Ok (t, evs) => run ops t evs
  | Fault f => Some (Fault f)
  end.

(** Any number of [calcExecTimeError] calls on one collector, each
    given as [(start, end, expected)]. *)
Fixpoint recordCycles (calls : list (Z * Z * Z)) (c : StatisticsCollector)
  : outcome StatisticsCollector :=
  match calls with
  | [] => Ok c
  | (start, end_, expected) :: rest =>
      c' <- calcExecTimeError c start end_ expected ;;
      recordCycles rest c'
  end.

(** ** Rounding of a mantissa *)

(** The record [iter_pos shr_1] reaches after [k] shifts of a mantissa [M]:
    the quotient, the round bit and the sticky bit. *)
Definition shifted (M : Z) (k : nat) : shr_record :=
  let q := 2 ^ Z.of_nat k in
  {| shr_m := M / q;
     shr_r := q <=? 2 * (M mod q);
     shr_s := negb ((2 * (M mod q)) mod q =? 0) |}.

(** ** Statements used below *)

(** The sleep time as the specification writes it. *)
Definition sleepTime_of (period elapsed : Z) : Z :=
  (if elapsed <=? period
   then period - elapsed
   else period - (Z.abs (period - elapsed) mod period)) - 50000.

(** The specification on what a cycle records: the amount added to
    [compensation] by a cycle that was not cancelled is the time that was
    waited, a duration between zero and the time from the reading of the
    clock before the wait to the reading after it. *)
Definition records_time_waited : Prop :=
  forall c period start stop_ now c' evs,
    cycle c period start stop_ now false = Ok (Continue c', evs) ->
    exists waited,
      0 <= waited <= now - stop_ /\
      compensation c' = wrap64 (compensation c + waited).

(** The amount a cycle records does not depend on the reading of the clock
    after the wait. *)
Definition recorded_amount_ignores_wait : Prop :=
  forall c period start stop_ now now' c1 c2 evs1 evs2,
    cycle c period start stop_ now false = Ok (Continue c1, evs1) ->
    cycle c period start stop_ now' false = Ok (Continue c2, evs2) ->
    compensation c1 = compensation c2.

(** The specification on a repeated [stop], over the states an instance
    can be in: [stop] on an instance without a running worker changes
    nothing and emits nothing. *)
Definition stop_is_idempotent : Prop :=
  forall rate unit enableStatistics ops t evs inflight,
    history rate unit enableStatistics ops = Some (Ok (t, evs)) ->
    workerThread_ t = NoThread ->
    stop inflight t = Ok (t, []).

(** A 50 ms task with statistics after one recorded cycle and a [stop]. *)
Definition stopped_after_one_cycle : TimerTask :=
  {| rate_ := 50;
     ratio_ := milliseconds;
     collector := {| samples := 1;
                     acummulation := 100;
                     compensation := 39950000;
                     maxVariance := 100;
                     minVariance := 100;
                     toleraceExcessionCount := 0 |};
     statisticsEnabled := true;
     running_ := false;
     workerThread_ := NoThread |}.

(** The worker is inside its loop. *)
Definition in_loop (w : worker) : bool :=
  match w with
  | AtLoopHead _ | Waiting _ _ _ => true
  | NoThread | Spawned => false
  end.

(** In every state of a history the flag says whether a worker loops. *)
Definition flag_tracks_worker (t : TimerTask) : Prop :=
  running_ t = in_loop (workerThread_ t).

(** An operation that starts a new worker: [setRate] with
    [imediate = true] and a rate other than zero. *)
Definition restarts (o : op) : bool :=
  match o with
  | OpSetRate rate _ true _ => negb (rate =? 0)
  | _ => false
  end.

(** An operation that runs [stop]. *)
Definition stops (o : op) : bool :=
  match o with
  | OpStop _ | OpSetRate _ _ true _ => true
  | _ => false
  end.

(** The specification on the flag: once [running_] is false after a
    [stop], no further operation on the instance makes it true. *)
Definition never_resurrected : Prop :=
  forall rate unit enableStatistics ops1 inflight ops2 t1 out1 t2 out2,
    history rate unit enableStatistics (ops1 ++ [OpStop inflight])
      = Some (Ok (t1, out1)) ->
    run ops2 t1 out1 = Some (Ok (t2, out2)) ->
    running_ t2 = false.

(** ** The destructor and summaries of a run *)


(** Any number of [calcSleepCompensation] calls on one collector. *)
Definition recordCompensations (amounts : list Z) (c : StatisticsCollector)
  : StatisticsCollector :=
  fold_left calcSleepCompensation amounts c.

(** The error sample and the tolerance test of a call
    [(start, end, expected)], and the range in which the call is defined. *)
Definition error_of (call : Z * Z * Z) : Z :=
  let '(start, end_, expected) := call in Z.abs (end_ - start - expected).

Definition exceeds_of (call : Z * Z * Z) : bool :=
  let '(start, end_, expected) := call in exceedsTolerance (end_ - start) expected.

Definition call_in_range (call : Z * Z * Z) : Prop :=
  let '(start, end_, expected) := call in
  int64_min <= end_ - start <= int64_max /\
  int64_min < end_ - start - expected <= int64_max.

Definition list_sum (l : list Z) : Z := fold_right Z.add 0 l.
Definition list_max (l : list Z) : Z := fold_right Z.max 0 l.
Definition list_min (l : list Z) : Z := fold_right Z.min uint64_max l.

(** Every field of a collector is a [uint64_t] value. *)
Definition collector_in_range (c : StatisticsCollector) : Prop :=
  0 <= samples c <= uint64_max /\
  0 <= acummulation c <= uint64_max /\
  0 <= compensation c <= uint64_max /\
  0 <= maxVariance c <= uint64_max /\
  0 <= minVariance c <= uint64_max /\
  0 <= toleraceExcessionCount c <= uint64_max.

(** The completed waits of a history. *)
Definition is_timeout (o : op) : bool :=
  match o with
  | WorkerTimeout _ => true
  | _ => false
  end.

Definition completed_cycles (ops : list op) : Z :=
  Z.of_nat (List.length (filter is_timeout ops)).

(** [setRate] with [imediate = false]. *)
Definition is_deferred_setRate (o : op) : bool :=
  match o with
  | OpSetRate _ _ false _ => true
  | _ => false
  end.

(** Operations that read the stored rate: the start of a worker, and
    [setRate] with [imediate = true], which stores a rate of its own. *)
Definition reads_rate (o : op) : bool :=
  match o with
  | WorkerBegin | OpSetRate _ _ true _ => true
  | _ => false
  end.

(** Two instances that differ at most in the stored rate and unit. *)
Definition same_but_rate (t u : TimerTask) : Prop :=
  collector t = collector u /\
  statisticsEnabled t = statisticsEnabled u /\
  running_ t = running_ u /\
  workerThread_ t = workerThread_ u.

(** The worker threads alive after a list of events: threads created
    less threads joined. *)
Definition is_spawn (e : event) : bool :=
  match e with
  | EvSpawn => true
  | _ => false
  end.

Definition is_join (e : event) : bool :=
  match e with
  | EvJoin => true
  | _ => false
  end.

Definition live_workers (evs : list event) : Z :=
  Z.of_nat (List.length (filter is_spawn evs))
  - Z.of_nat (List.length (filter is_join evs)).

Definition thread_count (w : worker) : Z := if joinable w then 1 else 0.


(** * Properties *)

(** ** Machine arithmetic *)

Lemma two64_value : two64 = 18446744073709551616.
Proof. reflexivity. Qed.

Lemma wrap64_small z : 0 <= z <= uint64_max -> wrap64 z = z.
Proof.
  unfold wrap64, uint64_max. intros H. apply Z.mod_small.
  rewrite two64_value in *. lia.
Qed.

Lemma wrap64_range z : 0 <= wrap64 z <= uint64_max.
Proof.
  unfold wrap64, uint64_max.
  pose proof (Z.mod_pos_bound z two64) as H.
  rewrite two64_value in *. lia.
Qed.

Lemma wrap64_add_r a b : wrap64 (a + wrap64 b) = wrap64 (a + b).
Proof. unfold wrap64. apply Zplus_mod_idemp_r. Qed.

Lemma wrap64_succ_neq z : 0 <= z <= uint64_max -> wrap64 (z + 1) <> z.
Proof.
  intros H. unfold uint64_max in H. rewrite two64_value in H.
  destruct (Z.eq_dec z 18446744073709551615) as [-> | Hne].
  - vm_compute. discriminate.
  - rewrite wrap64_small; [lia |].
    unfold uint64_max. rewrite two64_value. lia.
Qed.


Lemma in_int64_spec z : in_int64 z = true <-> int64_min <= z <= int64_max.
Proof. unfold in_int64. rewrite andb_true_iff, !Z.leb_le. tauto. Qed.

Lemma checked_ok z : int64_min <= z <= int64_max -> checked z = Ok z.
Proof.
  intros H. unfold checked.
  destruct (in_int64 z) eqn:E; [reflexivity |].
  apply in_int64_spec in H. congruence.
Qed.

Lemma int64_bounds : int64_min = -9223372036854775808 /\ int64_max = 9223372036854775807.
Proof. split; reflexivity. Qed.

Ltac int64 :=
  destruct int64_bounds as [?Hmin ?Hmax];
  unfold uint64_max in *; rewrite ?two64_value in *; lia.

(** ** binary64: conversion, product and comparison

    The tolerance test of [calcExecTimeError] multiplies and compares in
    binary64.  For periods below 2^48 ns and durations below 2^53 ns the
    conversions are exact and the rounding of the product cannot cross an
    integer, so the test agrees with the exact comparison
    [21 * expected < 20 * execTime]. *)

Lemma iter_pos_nat {A : Type} (f : A -> A) p : forall x,
  iter_pos f p x = Nat.iter (Pos.to_nat p) f x.
Proof.
  induction p as [p IH | p IH |]; intros x; cbn [iter_pos].
  - rewrite !IH, Pos2Nat.inj_xI.
    rewrite <- Nat.iter_succ_r, <- Nat.iter_add. f_equal. lia.
  - rewrite !IH, Pos2Nat.inj_xO. rewrite <- Nat.iter_add. f_equal. lia.
  - reflexivity.
Qed.

Lemma shr_1_nonneg m r s :
  0 <= m ->
  shr_1 {| shr_m := m; shr_r := r; shr_s := s |} =
  {| shr_m := m / 2; shr_r := Z.odd m; shr_s := r || s |}.
Proof.
  intros Hm. destruct m as [| p | p]; [reflexivity | | lia].
  destruct p as [p | p |]; cbn [shr_1 Z.odd].
  - f_equal. apply Z.div_unique with (r := 1); lia.
  - f_equal. apply Z.div_unique with (r := 0); lia.
  - reflexivity.
Qed.

Lemma shifted_iter M k :
  0 <= M ->
  Nat.iter k shr_1 {| shr_m := M; shr_r := false; shr_s := false |} = shifted M k.
Proof.
  intros HM. induction k as [| k IH].
  - unfold shifted. cbn [Nat.iter nat_rect Z.of_nat]. change (2 ^ 0) with 1.
    rewrite Z.div_1_r, !Z.mod_1_r. reflexivity.
  - rewrite Nat.iter_succ, IH. unfold shifted. cbv zeta.
    rewrite Nat2Z.inj_succ, Z.pow_succ_r by lia.
    set (q := 2 ^ Z.of_nat k).
    assert (Hq : 0 < q) by (apply Z.pow_pos_nonneg; lia).
    rewrite shr_1_nonneg by (apply Z.div_pos; lia).
    pose proof (Z.div_mod M q ltac:(lia)) as HMq.
    pose proof (Z.mod_pos_bound M q Hq) as Hrho.
    set (m := M / q) in *. set (rho := M mod q) in *.
    pose proof (Z.div_mod m 2 ltac:(lia)) as Hm2.
    pose proof (Z.mod_pos_bound m 2 ltac:(lia)) as Hb.
    assert (Hdiv : M / (2 * q) = m / 2).
    { symmetry. apply Z.div_unique with (r := (m mod 2) * q + rho); nia. }
    assert (Hmod : M mod (2 * q) = (m mod 2) * q + rho).
    { symmetry. apply Z.mod_unique with (q := m / 2); nia. }
    rewrite Hdiv, Hmod.
    assert (Hodd : Z.odd m = (m mod 2 =? 1)).
    { rewrite Zmod_odd. destruct (Z.odd m); reflexivity. }
    f_equal.
    + rewrite Hodd. destruct (Z.eqb_spec (m mod 2) 1) as [E | E].
      * symmetry. apply Z.leb_le. nia.
      * symmetry. apply Z.leb_gt. nia.
    + assert (Hs : (2 * ((m mod 2) * q + rho)) mod (2 * q) = 2 * rho).
      { symmetry. apply Z.mod_unique with (q := m mod 2); nia. }
      rewrite Hs.
      destruct (Z.leb_spec q (2 * rho)) as [Hle | Hlt]; cbn [orb].
      * destruct (Z.eqb_spec (2 * rho) 0); [lia | reflexivity].
      * rewrite (Z.mod_small (2 * rho) q) by lia. reflexivity.
Qed.

Lemma round_shifted M k :
  0 <= M ->
  let q := 2 ^ Z.of_nat k in
  let R := round_nearest_even (shr_m (shifted M k)) (loc_of_shr_record (shifted M k)) in
  M / q <= R <= M / q + 1 /\ 2 * Z.abs (R * q - M) <= q.
Proof.
  intros HM q R. subst R. unfold shifted. fold q. cbv zeta.
  assert (Hq : 0 < q) by (apply Z.pow_pos_nonneg; lia).
  pose proof (Z.div_mod M q ltac:(lia)) as HMq.
  pose proof (Z.mod_pos_bound M q Hq) as Hrho.
  set (m := M / q) in *. set (rho := M mod q) in *.
  cbn [shr_m loc_of_shr_record].
  destruct (Z.leb_spec q (2 * rho)) as [Hle | Hlt].
  - destruct (Z.eqb_spec ((2 * rho) mod q) 0) as [Hz | Hnz]; cbn [negb].
    + assert (2 * rho = q).
      { pose proof (Z.div_mod (2 * rho) q ltac:(lia)) as Hd.
        rewrite Hz in Hd.
        assert ((2 * rho) / q = 1) by (symmetry; apply Z.div_unique with (r := 2 * rho - q); lia).
        nia. }
      cbn [round_nearest_even]. destruct (Z.even m); split; nia.
    + cbn [round_nearest_even]. split; nia.
  - rewrite (Z.mod_small (2 * rho) q) by lia.
    destruct (Z.eqb_spec (2 * rho) 0); cbn [negb round_nearest_even]; split; nia.
Qed.

Lemma digits2_pos_bounds p :
  2 ^ (Zpos (digits2_pos p) - 1) <= Zpos p < 2 ^ Zpos (digits2_pos p).
Proof.
  induction p as [p IH | p IH |]; cbn [digits2_pos].
  - rewrite Pos2Z.inj_succ.
    replace (Z.succ (Z.pos (digits2_pos p)) - 1) with (Z.succ (Z.pos (digits2_pos p) - 1)) by lia.
    rewrite !Z.pow_succ_r by lia. lia.
  - rewrite Pos2Z.inj_succ.
    replace (Z.succ (Z.pos (digits2_pos p)) - 1) with (Z.succ (Z.pos (digits2_pos p) - 1)) by lia.
    rewrite !Z.pow_succ_r by lia. lia.
  - cbn. lia.
Qed.

Lemma digits2_pos_unique p d :
  2 ^ (d - 1) <= Zpos p < 2 ^ d -> Zpos (digits2_pos p) = d.
Proof.
  intros H. pose proof (digits2_pos_bounds p) as Hb.
  set (D := Zpos (digits2_pos p)) in *.
  assert (0 < d).
  { destruct (Z.ltb_spec 0 d); [assumption |].
    destruct (Z.eq_dec d 0) as [-> | ]; [cbn in H; lia |].
    rewrite (Z.pow_neg_r 2 d) in H by lia. lia. }
  destruct (Z.lt_trichotomy D d) as [Hlt | [Heq | Hgt]]; [| assumption |].
  - assert (2 ^ D <= 2 ^ (d - 1)) by (apply Z.pow_le_mono_r; lia). lia.
  - assert (2 ^ d <= 2 ^ (D - 1)) by (apply Z.pow_le_mono_r; lia). lia.
Qed.

Lemma fexp_53 e : -1074 <= e - 53 -> fexp 53 1024 e = e - 53.
Proof. intros H. unfold fexp, emin. lia. Qed.

(** A mantissa of exactly 53 bits is its own rounding. *)
Lemma binary_round_aux_53 s m e :
  Zpos (digits2_pos m) = 53 -> -1074 <= e <= 971 ->
  binary_round_aux 53 1024 s (Zpos m) e loc_Exact = S754_finite s m e.
Proof.
  intros Hd He. unfold binary_round_aux, shr_fexp.
  cbn [Zdigits2 shr_record_of_loc]. rewrite Hd.
  rewrite fexp_53 by lia. replace (53 + e - 53 - e) with 0 by lia.
  cbn [shr shr_m loc_of_shr_record round_nearest_even Zdigits2].
  rewrite Hd. rewrite fexp_53 by lia. replace (53 + e - 53 - e) with 0 by lia.
  cbn [shr shr_m]. destruct (Z.leb_spec e (1024 - 53)); [reflexivity | lia].
Qed.

Lemma iter_xO m d : Zpos (Pos.iter xO m d) = Zpos m * 2 ^ Zpos d.
Proof.
  induction d as [| d IH] using Pos.peano_ind.
  - cbn [Pos.iter]. change (2 ^ 1) with 2. lia.
  - rewrite Pos.iter_succ, Pos2Z.inj_xO, IH, Pos2Z.inj_succ, Z.pow_succ_r by lia. lia.
Qed.

Lemma binary_round_small s p :
  Zpos p < 2 ^ 53 ->
  exists m e,
    binary_round 53 1024 s p 0 = S754_finite s m e /\
    Zpos (digits2_pos m) = 53 /\ -52 <= e <= 0 /\
    Zpos m = Zpos p * 2 ^ (- e).
Proof.
  intros Hp. pose proof (digits2_pos_bounds p) as Hb.
  set (d := Zpos (digits2_pos p)) in *.
  assert (Hd : 1 <= d <= 53).
  { split; [subst d; lia |].
    destruct (Z.leb_spec d 53); [assumption |].
    assert (2 ^ 53 <= 2 ^ (d - 1)) by (apply Z.pow_le_mono_r; lia). lia. }
  unfold binary_round. fold d. rewrite Z.add_0_r, fexp_53 by lia.
  unfold shl_align. rewrite Z.sub_0_r.
  destruct (d - 53) as [| k | k] eqn:Ek; [| lia |].
  - exists p, 0. rewrite binary_round_aux_53 by (fold d; lia).
    split; [reflexivity |]. split; [fold d; lia |]. split; [lia |].
    cbn. lia.
  - exists (Pos.iter xO p k), (Z.neg k).
    assert (Hv : Zpos (Pos.iter xO p k) = Zpos p * 2 ^ Zpos k) by apply iter_xO.
    assert (Hdig : Zpos (digits2_pos (Pos.iter xO p k)) = 53).
    { apply digits2_pos_unique. rewrite Hv.
      assert (Hk : Zpos k = 53 - d) by lia.
      rewrite Hk.
      replace (2 ^ (53 - 1)) with (2 ^ (d - 1) * 2 ^ (53 - d))
        by (rewrite <- Z.pow_add_r by lia; f_equal; lia).
      replace (2 ^ 53) with (2 ^ d * 2 ^ (53 - d))
        by (rewrite <- Z.pow_add_r by lia; f_equal; lia).
      assert (0 < 2 ^ (53 - d)) by (apply Z.pow_pos_nonneg; lia).
      nia. }
    rewrite binary_round_aux_53 by (assumption || lia).
    split; [reflexivity |]. split; [exact Hdig |]. split; [lia |].
    rewrite Hv. reflexivity.
Qed.

Lemma shr_fexp_wide M ex k :
  Zpos (digits2_pos M) - 53 = Zpos k -> -1074 <= ex + Zpos k ->
  shr_fexp 53 1024 (Zpos M) ex loc_Exact =
  (shifted (Zpos M) (Pos.to_nat k), ex + Zpos k).
Proof.
  intros Hk Hlo. unfold shr_fexp. cbn [Zdigits2 shr_record_of_loc].
  rewrite fexp_53 by lia.
  replace (Z.pos (digits2_pos M) + ex - 53 - ex) with (Zpos k) by lia.
  cbn [shr]. rewrite iter_pos_nat, shifted_iter by lia. reflexivity.
Qed.

Lemma shr_fexp_53 r e :
  Zpos (digits2_pos r) = 53 -> -1074 <= e ->
  shr_fexp 53 1024 (Zpos r) e loc_Exact =
  ({| shr_m := Zpos r; shr_r := false; shr_s := false |}, e).
Proof.
  intros Hd He. unfold shr_fexp. cbn [Zdigits2 shr_record_of_loc].
  rewrite Hd, fexp_53 by lia. replace (53 + e - 53 - e) with 0 by lia.
  reflexivity.
Qed.

Lemma shr_fexp_carry e :
  -1074 <= e ->
  shr_fexp 53 1024 (2 ^ 53) e loc_Exact =
  ({| shr_m := 2 ^ 52; shr_r := false; shr_s := false |}, e + 1).
Proof.
  intros He. unfold shr_fexp.
  change (Zdigits2 (2 ^ 53)) with 54. rewrite fexp_53 by lia.
  replace (54 + e - 53 - e) with 1 by lia. reflexivity.
Qed.

Lemma binary_round_aux_shift s M ex :
  let D := Zpos (digits2_pos M) in
  53 < D -> -1074 <= ex + (D - 53) -> ex + (D - 53) + 1 <= 971 ->
  exists mr er R,
    binary_round_aux 53 1024 s (Zpos M) ex loc_Exact = S754_finite s mr er /\
    Zpos (digits2_pos mr) = 53 /\
    (er = ex + (D - 53) /\ Zpos mr = R \/ er = ex + (D - 53) + 1 /\ 2 * Zpos mr = R) /\
    Zpos M / 2 ^ (D - 53) <= R <= Zpos M / 2 ^ (D - 53) + 1 /\
    2 * Z.abs (R * 2 ^ (D - 53) - Zpos M) <= 2 ^ (D - 53).
Proof.
  intros D HD Hlo Hhi.
  pose proof (digits2_pos_bounds M) as Hb. fold D in Hb.
  destruct (D - 53) as [| k | k] eqn:Ek; [lia | | lia].
  unfold binary_round_aux. rewrite (shr_fexp_wide M ex k) by (fold D; lia).
  pose proof (round_shifted (Zpos M) (Pos.to_nat k) ltac:(lia)) as Hr.
  cbv zeta in Hr. rewrite positive_nat_Z in Hr.
  set (R := round_nearest_even _ _) in *.
  destruct Hr as [HR1 HR2].
  assert (HkD : D = 53 + Zpos k) by lia.
  assert (Hq : 2 ^ D = 2 ^ 53 * 2 ^ Zpos k)
    by (rewrite HkD; apply Z.pow_add_r; lia).
  assert (Hq' : 2 ^ (D - 1) = 2 ^ 52 * 2 ^ Zpos k)
    by (replace (D - 1) with (52 + Zpos k) by lia; apply Z.pow_add_r; lia).
  assert (Hqpos : 0 < 2 ^ Zpos k) by (apply Z.pow_pos_nonneg; lia).
  assert (Hm : 2 ^ 52 <= Zpos M / 2 ^ Zpos k < 2 ^ 53).
  { split.
    - apply Z.div_le_lower_bound; lia.
    - apply Z.div_lt_upper_bound; lia. }
  destruct (Z.eq_dec R (2 ^ 53)) as [Hmax | Hnmax].
  - exists (2 ^ 52)%positive, (ex + Zpos k + 1), R.
    rewrite Hmax at 1 2. rewrite shr_fexp_carry by lia. cbn [shr_m].
    change (2 ^ 52) with (Zpos (2 ^ 52)).
    destruct (Z.leb_spec (ex + Z.pos k + 1) (1024 - 53)); [| lia].
    split; [reflexivity |]. split; [reflexivity |].
    split; [right; split; [reflexivity | rewrite Hmax; reflexivity] |].
    split; [exact HR1 | exact HR2].
  - destruct R as [| r | r] eqn:ER; [lia | | lia].
    exists r, (ex + Zpos k), (Zpos r).
    assert (Hdig : Zpos (digits2_pos r) = 53).
    { apply digits2_pos_unique. change (2 ^ (53 - 1)) with (2 ^ 52). lia. }
    rewrite shr_fexp_53 by (assumption || lia). cbn [shr_m].
    destruct (Z.leb_spec (ex + Z.pos k) (1024 - 53)); [| lia].
    split; [reflexivity |]. split; [exact Hdig |].
    split; [left; split; reflexivity |].
    split; [exact HR1 | exact HR2].
Qed.

Lemma SFltb_canonical m1 e1 m2 e2 b :
  Zpos (digits2_pos m1) = 53 -> Zpos (digits2_pos m2) = 53 ->
  b <= e1 -> b <= e2 ->
  SFltb (S754_finite false m1 e1) (S754_finite false m2 e2) =
  (Zpos m1 * 2 ^ (e1 - b) <? Zpos m2 * 2 ^ (e2 - b)).
Proof.
  intros H1 H2 Hb1 Hb2.
  pose proof (digits2_pos_bounds m1) as B1. rewrite H1 in B1.
  pose proof (digits2_pos_bounds m2) as B2. rewrite H2 in B2.
  change (2 ^ (53 - 1)) with (2 ^ 52) in *.
  assert (P1 : 0 < 2 ^ (e1 - b)) by (apply Z.pow_pos_nonneg; lia).
  assert (P2 : 0 < 2 ^ (e2 - b)) by (apply Z.pow_pos_nonneg; lia).
  unfold SFltb, SFcompare.
  destruct (Z.compare_spec e1 e2) as [Heq | Hlt | Hgt].
  - subst e2. rewrite Pos.compare_cont_spec. cbn [Pos.switch_Eq].
    change (Pos.compare m1 m2) with (Z.compare (Zpos m1) (Zpos m2)).
    destruct (Z.compare_spec (Zpos m1) (Zpos m2)) as [E | L | G];
      symmetry; [apply Z.ltb_ge | apply Z.ltb_lt | apply Z.ltb_ge]; nia.
  - symmetry. apply Z.ltb_lt.
    assert (2 ^ (e2 - b) = 2 ^ (e2 - e1 - 1) * (2 * 2 ^ (e1 - b))).
    { rewrite <- Z.pow_succ_r by lia. rewrite <- Z.pow_add_r by lia. f_equal. lia. }
    assert (0 < 2 ^ (e2 - e1 - 1)) by (apply Z.pow_pos_nonneg; lia).
    change (2 ^ 52) with 4503599627370496 in *.
    change (2 ^ 53) with 9007199254740992 in *. nia.
  - symmetry. apply Z.ltb_ge.
    assert (2 ^ (e1 - b) = 2 ^ (e1 - e2 - 1) * (2 * 2 ^ (e2 - b))).
    { rewrite <- Z.pow_succ_r by lia. rewrite <- Z.pow_add_r by lia. f_equal. lia. }
    assert (0 < 2 ^ (e1 - e2 - 1)) by (apply Z.pow_pos_nonneg; lia).
    change (2 ^ 52) with 4503599627370496 in *.
    change (2 ^ 53) with 9007199254740992 in *. nia.
Qed.

Lemma tolerance_arith x n J q T' R M :
  0 < x -> 32 <= J -> x * J < 2 ^ 53 ->
  q = 2 ^ 52 \/ q = 2 ^ 53 -> 2 ^ 52 * J = q * T' ->
  M = x * J * 4728779608739021 ->
  M / q <= R -> 2 * Z.abs (R * q - M) <= q ->
  (R * q <? n * (2 ^ 52 * J)) = (21 * x <? 20 * n).
Proof.
  intros Hx HJ HxJ Hq HT HM HR1 HR2.
  change (2 ^ 52) with 4503599627370496 in *.
  change (2 ^ 53) with 9007199254740992 in *.
  set (a := x * J) in *.
  destruct (Z.ltb_spec (21 * x) (20 * n)) as [Hlt | Hge].
  - apply Z.ltb_lt.
    assert (Hn : 21 * a + J <= 20 * (n * J)) by (subst a; nia).
    destruct Hq as [-> | ->]; lia.
  - apply Z.ltb_ge.
    assert (Hn : 20 * (n * J) <= 21 * a) by (subst a; nia).
    assert (Hdiv : n * T' <= M / q).
    { apply Z.div_le_lower_bound; [destruct Hq; lia |].
      destruct Hq as [-> | ->]; lia. }
    destruct Hq as [-> | ->]; lia.
Qed.

Lemma double_of_Z_pos n :
  0 < n < 2 ^ 53 ->
  exists m e,
    double_of_Z n = S754_finite false m e /\
    Zpos (digits2_pos m) = 53 /\ -52 <= e <= 0 /\ Zpos m = n * 2 ^ (- e).
Proof.
  intros Hn. destruct n as [| p | p]; try lia.
  apply (binary_round_small false p). lia.
Qed.

Lemma double_of_Z_neg n :
  - 2 ^ 53 < n < 0 -> exists m e, double_of_Z n = S754_finite true m e.
Proof.
  intros Hn. destruct n as [| p | p]; try lia.
  destruct (binary_round_small true p) as (m & e & H & _); [lia |].
  exists m, e. exact H.
Qed.

Lemma SFltb_sign_cases (x : spec_float) n :
  (exists m e, x = S754_finite false m e) \/ x = S754_zero false ->
  - 2 ^ 53 < n <= 0 -> SFltb x (double_of_Z n) = false.
Proof.
  intros Hx Hn. destruct (Z.eq_dec n 0) as [-> | Hnz].
  - destruct Hx as [(m & e & ->) | ->]; reflexivity.
  - destruct (double_of_Z_neg n ltac:(lia)) as (m2 & e2 & ->).
    destruct Hx as [(m & e & ->) | ->]; reflexivity.
Qed.

Lemma exceedsTolerance_exact execTime expected :
  0 <= expected < 2 ^ 48 -> - 2 ^ 53 < execTime < 2 ^ 53 ->
  exceedsTolerance execTime expected = (21 * expected <? 20 * execTime).
Proof.
  intros Hx Hn. unfold exceedsTolerance, double_ltb, double_mul.
  destruct (Z.eq_dec expected 0) as [-> | Hxnz].
  - change (SFmul 53 1024 (double_of_Z 0) d1_05) with (S754_zero false).
    destruct (Z.ltb_spec 0 execTime) as [Hpos | Hnpos].
    + destruct (double_of_Z_pos execTime ltac:(lia)) as (m2 & e2 & -> & _).
      change (SFltb (S754_zero false) (S754_finite false m2 e2)) with true.
      symmetry. apply Z.ltb_lt. lia.
    + rewrite SFltb_sign_cases by (auto || lia).
      symmetry. apply Z.ltb_ge. lia.
  - destruct (double_of_Z_pos expected) as (m1 & e1 & -> & Hd1 & He1 & Hm1).
    { change (2 ^ 48) with 281474976710656 in Hx.
      change (2 ^ 53) with 9007199254740992. lia. }
    pose proof (digits2_pos_bounds m1) as B1. rewrite Hd1 in B1.
    change (2 ^ (53 - 1)) with 4503599627370496 in B1.
    change (2 ^ 53) with 9007199254740992 in B1.
    set (J := 2 ^ (- e1)) in *.
    assert (HJ : 32 <= J).
    { destruct (Z.leb_spec 5 (- e1)) as [H5 | H5].
      - change 32 with (2 ^ 5). apply Z.pow_le_mono_r; lia.
      - assert (J <= 2 ^ 4) by (apply Z.pow_le_mono_r; lia).
        change (2 ^ 4) with 16 in *. change (2 ^ 48) with 281474976710656 in Hx. nia. }
    unfold d1_05. cbn [SFmul xorb].
    set (M := (m1 * 4728779608739021)%positive).
    assert (HM : Zpos M = expected * J * 4728779608739021).
    { subst M. rewrite Pos2Z.inj_mul, Hm1. reflexivity. }
    pose proof (digits2_pos_bounds M) as BM.
    set (D := Zpos (digits2_pos M)) in *.
    assert (HD : D = 105 \/ D = 106).
    { assert (104 < D).
      { destruct (Z.ltb_spec 104 D); [assumption |].
        assert (2 ^ D <= 2 ^ 104) by (apply Z.pow_le_mono_r; lia).
        change (2 ^ 104) with 20282409603651670423947251286016 in *. nia. }
      assert (D < 107).
      { destruct (Z.ltb_spec D 107); [assumption |].
        assert (2 ^ 106 <= 2 ^ (D - 1)) by (apply Z.pow_le_mono_r; lia).
        change (2 ^ 106) with 81129638414606681695789005144064 in *. nia. }
      lia. }
    destruct (binary_round_aux_shift false M (e1 + -52))
      as (mr & er & R & -> & Hdr & Her & HR1 & HR2); fold D; try lia.
    fold D in HR1, HR2, Her.
    destruct (Z.ltb_spec 0 execTime) as [Hpos | Hnpos].
    + destruct (double_of_Z_pos execTime ltac:(lia)) as (m2 & e2 & -> & Hd2 & He2 & Hm2).
      rewrite (SFltb_canonical mr er m2 e2 (e1 + -52)) by (assumption || lia).
      assert (HW : Zpos m2 * 2 ^ (e2 - (e1 + -52)) = execTime * (2 ^ 52 * J)).
      { rewrite Hm2. subst J. rewrite <- Z.mul_assoc. f_equal.
        rewrite <- !Z.pow_add_r by lia. f_equal. lia. }
      assert (HV : Zpos mr * 2 ^ (er - (e1 + -52)) = R * 2 ^ (D - 53)).
      { destruct Her as [[-> <-] | [-> <-]].
        - f_equal. f_equal. lia.
        - replace (e1 + -52 + (D - 53) + 1 - (e1 + -52)) with (Z.succ (D - 53)) by lia.
          rewrite Z.pow_succ_r by lia. lia. }
      rewrite HW, HV.
      assert (Hj : 5 <= - e1).
      { destruct (Z.leb_spec 5 (- e1)) as [H5 | H5]; [assumption |].
        assert (J <= 2 ^ 4) by (apply Z.pow_le_mono_r; lia).
        change (2 ^ 4) with 16 in *. lia. }
      apply (tolerance_arith expected execTime J (2 ^ (D - 53))
               (2 ^ (52 + - e1 - (D - 53))) R (Zpos M)).
      * lia.
      * exact HJ.
      * rewrite <- Hm1. change (2 ^ 53) with 9007199254740992. lia.
      * destruct HD as [-> | ->]; [left | right]; reflexivity.
      * subst J. rewrite <- !Z.pow_add_r by lia. f_equal. lia.
      * exact HM.
      * lia.
      * exact HR2.
    + rewrite SFltb_sign_cases by (eauto || lia).
      symmetry. apply Z.ltb_ge. lia.
Qed.

(** Beyond that range the two comparisons can differ: for this period of
    about thirteen days the duration exceeds 105% of it by 1/20 ns, and
    the binary64 product rounds up to the duration itself. *)
Lemma exceedsTolerance_large :
  exceedsTolerance 1182194902184771 1125899906842639 = false /\
  21 * 1125899906842639 < 20 * 1182194902184771.
Proof. split; [vm_compute; reflexivity | lia]. Qed.

(** The literal is the double nearest to 21/20. *)
Lemma d1_05_nearest : double_div (double_of_Z 21) (double_of_Z 20) = d1_05.
Proof. vm_compute. reflexivity. Qed.

(** ** StatisticsCollector *)

Lemma udiv_zero a : udiv a 0 = Fault DivisionByZero.
Proof. reflexivity. Qed.

Lemma udiv_ok a b : b <> 0 -> udiv a b = Ok (a / b).
Proof.
  intros H. unfold udiv. destruct (Z.eqb_spec b 0); [contradiction | reflexivity].
Qed.

Lemma printResults_ok c u :
  samples c <> 0 -> exists r, printResults c u = Ok r /\ rep_samples r = samples c.
Proof.
  intros H. unfold printResults. rewrite !udiv_ok by assumption. cbn [bind].
  eexists. split; reflexivity.
Qed.

Lemma printResults_div_zero c u :
  samples c = 0 -> printResults c u = Fault DivisionByZero.
Proof.
  intros H. unfold printResults. rewrite H, udiv_zero. reflexivity.
Qed.

(** C1 (the code misses the guard).  With no sample recorded,
    [printResults] evaluates [acummulation / samples] with a zero divisor
    before anything else: the run ends in a division by zero, for every
    unit, and no report of any kind is produced. *)
Theorem printResults_zero_samples c samplingUnit :
  samples c = 0 -> printResults c samplingUnit = Fault DivisionByZero.
Proof.
  intros H. unfold printResults, udiv. rewrite H. reflexivity.
Qed.

Lemma printResults_zero_samples_witness :
  samples StatisticsCollector_init = 0 /\
  printResults StatisticsCollector_init milliseconds = Fault DivisionByZero.
Proof.
  split; [reflexivity |].
  apply (printResults_zero_samples StatisticsCollector_init milliseconds).
  reflexivity.
Defined.

Lemma calcExecTimeError_ok c start end_ expected :
  int64_min <= end_ - start <= int64_max ->
  int64_min < end_ - start - expected <= int64_max ->
  calcExecTimeError c start end_ expected =
  Ok (let error := Z.abs (end_ - start - expected) in
      let c2 := considerVariance (accumulate c error) error in
      if exceedsTolerance (end_ - start) expected then countExcession c2 else c2).
Proof.
  intros H1 H2. unfold calcExecTimeError, dur_sub, dur_abs.
  rewrite (checked_ok (end_ - start)) by assumption. cbn [bind].
  rewrite (checked_ok (end_ - start - expected)) by lia. cbn [bind].
  rewrite checked_ok by int64. cbn [bind].
  rewrite wrap64_small by int64. reflexivity.
Qed.

Lemma calcExecTimeError_fields c start end_ expected :
  int64_min <= end_ - start <= int64_max ->
  int64_min < end_ - start - expected <= int64_max ->
  exists c',
    calcExecTimeError c start end_ expected = Ok c' /\
    samples c' = wrap64 (samples c + 1) /\
    acummulation c' = wrap64 (acummulation c + Z.abs (end_ - start - expected)) /\
    maxVariance c' = Z.max (maxVariance c) (Z.abs (end_ - start - expected)) /\
    minVariance c' = Z.min (minVariance c) (Z.abs (end_ - start - expected)) /\
    compensation c' = compensation c /\
    toleraceExcessionCount c' =
      if exceedsTolerance (end_ - start) expected
      then wrap64 (toleraceExcessionCount c + 1)
      else toleraceExcessionCount c.
Proof.
  intros H1 H2. rewrite calcExecTimeError_ok by assumption. cbv zeta.
  eexists. split; [reflexivity |].
  destruct (exceedsTolerance (end_ - start) expected); cbn;
    repeat split; try apply Z.max_comm; apply Z.min_comm.
Qed.

(** C3.  A call [calcExecTimeError(start, end, expected)] whose signed
    subtractions stay in range returns, with
    [error = |(end - start) - expected|]: [samples] is incremented by one
    and [error] is added to [acummulation] (both in [uint64_t], so exactly
    when the sum is representable), [maxVariance] and [minVariance] become
    the maximum and minimum with [error], [compensation] is untouched, and
    [toleraceExcessionCount] is incremented if and only if
    [(end - start) > expected * 1.05] holds as the code evaluates it, in
    binary64; for periods below 2^48 ns and durations below 2^53 ns that
    is the exact comparison [20 * (end - start) > 21 * expected]. *)
Theorem calcExecTimeError_spec c start end_ expected :
  let execTime := end_ - start in
  let error := Z.abs (execTime - expected) in
  int64_min <= execTime <= int64_max ->
  int64_min < execTime - expected <= int64_max ->
  0 <= toleraceExcessionCount c <= uint64_max ->
  exists c',
    calcExecTimeError c start end_ expected = Ok c' /\
    samples c' = wrap64 (samples c + 1) /\
    (0 <= samples c < uint64_max -> samples c' = samples c + 1) /\
    acummulation c' = wrap64 (acummulation c + error) /\
    (0 <= acummulation c -> acummulation c + error <= uint64_max ->
     acummulation c' = acummulation c + error) /\
    maxVariance c' = Z.max (maxVariance c) error /\
    minVariance c' = Z.min (minVariance c) error /\
    compensation c' = compensation c /\
    (toleraceExcessionCount c' = wrap64 (toleraceExcessionCount c + 1) <->
     exceedsTolerance execTime expected = true) /\
    (toleraceExcessionCount c' = toleraceExcessionCount c <->
     exceedsTolerance execTime expected = false) /\
    (0 <= expected < 2 ^ 48 -> - 2 ^ 53 < execTime < 2 ^ 53 ->
     (toleraceExcessionCount c' = wrap64 (toleraceExcessionCount c + 1) <->
      20 * execTime > 21 * expected)).
Proof.
  intros execTime error H1 H2 Ht. subst execTime error.
  destruct (calcExecTimeError_fields c start end_ expected H1 H2)
    as (c' & Hc & Hs & Ha & Hmax & Hmin & Hcomp & Htol).
  pose proof (wrap64_succ_neq _ Ht) as Hne.
  assert (Hup : toleraceExcessionCount c' = wrap64 (toleraceExcessionCount c + 1) <->
                exceedsTolerance (end_ - start) expected = true).
  { rewrite Htol. destruct (exceedsTolerance (end_ - start) expected);
      split; intros; congruence. }
  exists c'. split; [exact Hc |]. split; [exact Hs |].
  split; [intros; rewrite Hs; apply wrap64_small; int64 |].
  split; [exact Ha |].
  split; [intros; rewrite Ha; apply wrap64_small; int64 |].
  split; [exact Hmax |]. split; [exact Hmin |]. split; [exact Hcomp |].
  split; [exact Hup |]. split.
  - rewrite Htol. destruct (exceedsTolerance (end_ - start) expected);
      split; intros; congruence.
  - intros Hx Hn. pose proof (exceedsTolerance_exact _ _ Hx Hn) as He. split.
    + intros H. apply Hup in H. rewrite He in H. apply Z.ltb_lt in H. lia.
    + intros H. apply Hup. rewrite He. apply Z.ltb_lt. lia.
Qed.

Lemma calcExecTimeError_spec_witness :
  exists c',
    calcExecTimeError StatisticsCollector_init 0 60000000 50000000 = Ok c' /\
    samples c' = 1 /\ acummulation c' = 10000000 /\
    maxVariance c' = 10000000 /\ minVariance c' = 10000000 /\
    toleraceExcessionCount c' = 1.
Proof.
  destruct (calcExecTimeError_spec StatisticsCollector_init 0 60000000 50000000)
    as (c' & Hc & Hs & _ & Ha & _ & Hmax & Hmin & _ & _ & _ & Ht).
  - vm_compute. split; discriminate.
  - vm_compute. split; [reflexivity | discriminate].
  - vm_compute. split; discriminate.
  - exists c'. split; [exact Hc |].
    split; [exact Hs |]. split; [exact Ha |].
    split; [exact Hmax |]. split; [exact Hmin |].
    destruct Ht as [_ Hback].
    + vm_compute. split; [discriminate | reflexivity].
    + vm_compute. split; reflexivity.
    + exact (Hback eq_refl).
Defined.

(** After any call the recorded minimum is at most the recorded maximum. *)
Lemma calcExecTimeError_min_le_max c start end_ expected c' :
  calcExecTimeError c start end_ expected = Ok c' ->
  minVariance c' <= maxVariance c'.
Proof.
  unfold calcExecTimeError. intros H.
  destruct (dur_sub end_ start) as [execTime |]; [cbn [bind] in H | discriminate].
  destruct (dur_sub execTime expected) as [diff |]; [cbn [bind] in H | discriminate].
  destruct (dur_abs diff) as [magnitude |]; [cbn [bind] in H | discriminate].
  injection H as <-.
  destruct (exceedsTolerance execTime expected); cbn; lia.
Qed.

Lemma recordCycles_invariant calls : forall c c',
  recordCycles calls c = Ok c' ->
  c' = c \/ minVariance c' <= maxVariance c'.
Proof.
  induction calls as [| [[start end_] expected] rest IH]; intros c c' H.
  - left. cbn in H. congruence.
  - right. cbn [recordCycles] in H.
    destruct (calcExecTimeError c start end_ expected) as [c1 |] eqn:E;
      [cbn [bind] in H | discriminate].
    destruct (IH _ _ H) as [-> | Hle]; [| exact Hle].
    eapply calcExecTimeError_min_le_max; eassumption.
Qed.

(** C7.  [minVariance] starts at the largest [uint64_t] value, and in
    every state reached from the initial one by [calcExecTimeError] calls,
    [samples > 0] implies [minVariance <= maxVariance]. *)
Theorem minVariance_le_maxVariance calls c :
  recordCycles calls StatisticsCollector_init = Ok c ->
  0 < samples c ->
  minVariance StatisticsCollector_init = 2 ^ 64 - 1 /\
  (forall z, 0 <= z < 2 ^ 64 -> z <= minVariance StatisticsCollector_init) /\
  minVariance c <= maxVariance c.
Proof.
  intros H Hs. split; [reflexivity |]. split.
  - intros z Hz. change (minVariance StatisticsCollector_init) with 18446744073709551615.
    change (2 ^ 64) with 18446744073709551616 in Hz. lia.
  - destruct (recordCycles_invariant _ _ _ H) as [-> | Hle]; [| exact Hle].
    cbn in Hs. lia.
Qed.

Lemma minVariance_le_maxVariance_witness :
  exists c,
    recordCycles [(0, 1000, 900); (1000, 1850, 900)] StatisticsCollector_init = Ok c /\
    samples c = 2 /\ minVariance c = 50 /\ maxVariance c = 100 /\
    minVariance c <= maxVariance c.
Proof.
  eexists. split; [vm_compute; reflexivity |].
  split; [reflexivity |]. split; [reflexivity |]. split; [reflexivity |].
  eapply (minVariance_le_maxVariance [(0, 1000, 900); (1000, 1850, 900)]).
  - vm_compute. reflexivity.
  - vm_compute. reflexivity.
Defined.

(** ** The worker loop *)

Lemma dur_rem_nonneg a b : 0 <= a -> 0 < b -> dur_rem a b = Ok (a mod b).
Proof.
  intros Ha Hb. unfold dur_rem.
  destruct (Z.eqb_spec b 0); [lia |].
  destruct (Z.eqb_spec a int64_min); [int64 |].
  cbn [andb]. rewrite Z.rem_mod_nonneg by lia. reflexivity.
Qed.

Lemma computeSleepTime_ok period elapsed :
  0 < period <= int64_max -> 0 <= elapsed <= int64_max ->
  computeSleepTime period elapsed = Ok (sleepTime_of period elapsed).
Proof.
  intros Hp He. unfold computeSleepTime, sleepTime_of, dur_sub, dur_abs.
  rewrite (checked_ok (period - elapsed)) by int64. cbn [bind].
  destruct (Z.ltb_spec (period - elapsed) 0) as [Hlt | Hge];
    destruct (Z.leb_spec elapsed period) as [Hle | Hgt]; try lia.
  - rewrite checked_ok by int64. cbn [bind].
    rewrite dur_rem_nonneg by lia. cbn [bind].
    pose proof (Z.mod_pos_bound (Z.abs (period - elapsed)) period ltac:(lia)).
    rewrite (checked_ok (period - _)) by int64. cbn [bind].
    apply checked_ok. int64.
  - cbn [bind]. apply checked_ok. int64.
Qed.

(** C4.  In a cycle whose action took [elapsed = stop - start] against a
    period [> 0], the duration handed to [wait_for] is
    [period - elapsed - 50000] when [elapsed <= period] and
    [period - (|period - elapsed| mod period) - 50000] when
    [elapsed > period]: the 50 microseconds are subtracted in both cases. *)
Theorem cycle_wait_duration period start stop_ :
  0 < period <= int64_max ->
  0 <= stop_ - start <= int64_max ->
  let elapsed := stop_ - start in
  exists sleepTime,
    cycle_begin period start stop_ = Ok (sleepTime, [EvAction; EvPrintSleep sleepTime]) /\
    computeSleepTime period elapsed = Ok sleepTime /\
    (elapsed <= period -> sleepTime = (period - elapsed) - 50000) /\
    (elapsed > period ->
     sleepTime = (period - (Z.abs (period - elapsed) mod period)) - 50000).
Proof.
  intros Hp He elapsed. subst elapsed.
  exists (sleepTime_of period (stop_ - start)).
  unfold cycle_begin, dur_sub.
  rewrite (checked_ok (stop_ - start)) by int64. cbn [bind].
  rewrite computeSleepTime_ok by assumption. cbn [bind].
  split; [reflexivity |]. split; [reflexivity |].
  unfold sleepTime_of.
  destruct (Z.leb_spec (stop_ - start) period); split; intros; lia.
Qed.

Lemma cycle_wait_duration_witness :
  cycle_begin 50000000 0 10000000 = Ok (39950000, [EvAction; EvPrintSleep 39950000]) /\
  cycle_begin 50000000 0 60000000 = Ok (39950000, [EvAction; EvPrintSleep 39950000]) /\
  cycle_begin 50000000 0 160000000 = Ok (39950000, [EvAction; EvPrintSleep 39950000]).
Proof.
  split; [| split].
  - destruct (cycle_wait_duration 50000000 0 10000000) as (s & Hc & _ & Hs & _).
    + vm_compute. split; [reflexivity | discriminate].
    + vm_compute. split; discriminate.
    + rewrite Hc, Hs by lia. reflexivity.
  - destruct (cycle_wait_duration 50000000 0 60000000) as (s & Hc & _ & _ & Hs).
    + vm_compute. split; [reflexivity | discriminate].
    + vm_compute. split; discriminate.
    + rewrite Hc, Hs by lia. reflexivity.
  - destruct (cycle_wait_duration 50000000 0 160000000) as (s & Hc & _ & _ & Hs).
    + vm_compute. split; [reflexivity | discriminate].
    + vm_compute. split; discriminate.
    + rewrite Hc, Hs by lia. reflexivity.
Defined.

Lemma calcSleepCompensation_compensation c amountSlept :
  compensation (calcSleepCompensation c amountSlept) =
  wrap64 (compensation c + amountSlept).
Proof. cbn. apply wrap64_add_r. Qed.

Lemma cycle_ok c period start stop_ now :
  0 < period <= int64_max ->
  0 <= stop_ - start <= int64_max ->
  0 <= now - start <= int64_max ->
  exists c1,
    calcExecTimeError c start now period = Ok c1 /\
    samples c1 = wrap64 (samples c + 1) /\
    compensation c1 = compensation c /\
    cycle c period start stop_ now false =
    Ok (Continue (calcSleepCompensation c1 (sleepTime_of period (stop_ - start))),
        [EvAction; EvPrintSleep (sleepTime_of period (stop_ - start))]) /\
    cycle c period start stop_ now true =
    Ok (Break, [EvAction; EvPrintSleep (sleepTime_of period (stop_ - start))]).
Proof.
  intros Hp He Hn.
  assert (Hc : exists c1, calcExecTimeError c start now period = Ok c1 /\
                          samples c1 = wrap64 (samples c + 1) /\
                          compensation c1 = compensation c).
  { rewrite calcExecTimeError_ok by int64. cbv zeta.
    eexists. split; [reflexivity |].
    destruct (exceedsTolerance (now - start) period); split; reflexivity. }
  destruct Hc as (c1 & Hc1 & Hs & Hcomp).
  exists c1. split; [exact Hc1 |]. split; [exact Hs |]. split; [exact Hcomp |].
  unfold cycle, cycle_begin, cycle_end, dur_sub.
  rewrite (checked_ok (stop_ - start)) by int64. cbn [bind].
  rewrite computeSleepTime_ok by assumption. cbn [bind].
  rewrite Hc1. cbn [bind]. split; reflexivity.
Qed.

(** C8, counterexample.  Period 1 ms, an action that takes the whole
    period, a wait that returns 10 ns later: the cycle adds the computed
    [sleepTime = -50000] (modulo 2^64), which no waited time between 0 and
    10 ns accounts for. *)
Lemma records_time_waited_fails : ~ records_time_waited.
Proof.
  intros H.
  destruct (H StatisticsCollector_init 1000000 0 1000000 1000010
              {| samples := 1;
                 acummulation := 10;
                 compensation := 18446744073709501616;
                 maxVariance := 10;
                 minVariance := 10;
                 toleraceExcessionCount := 0 |}
              [EvAction; EvPrintSleep (-50000)] eq_refl)
    as (waited & Hw & He).
  cbn [compensation StatisticsCollector_init] in He.
  rewrite wrap64_small in He by int64. lia.
Qed.

(** C8, amended.  A cycle whose wait ends without cancellation records
    exactly one error sample, [calcExecTimeError(start, now, period)] with
    [now] the reading of the clock after the wait, and adds to
    [compensation] (modulo 2^64) the sleep time it computed before the
    wait, the requested duration after the 50 microseconds were taken off;
    a cancelled cycle records nothing. *)
Theorem cycle_records c period start stop_ now :
  0 < period <= int64_max ->
  0 <= stop_ - start <= int64_max ->
  0 <= now - start <= int64_max ->
  exists sleepTime c1 c',
    computeSleepTime period (stop_ - start) = Ok sleepTime /\
    calcExecTimeError c start now period = Ok c1 /\
    cycle c period start stop_ now false =
      Ok (Continue c', [EvAction; EvPrintSleep sleepTime]) /\
    c' = calcSleepCompensation c1 sleepTime /\
    samples c' = wrap64 (samples c + 1) /\
    compensation c' = wrap64 (compensation c + sleepTime) /\
    cycle c period start stop_ now true =
      Ok (Break, [EvAction; EvPrintSleep sleepTime]).
Proof.
  intros Hp He Hn.
  destruct (cycle_ok c period start stop_ now Hp He Hn)
    as (c1 & Hc1 & Hs & Hcomp & Hrun & Hbreak).
  exists (sleepTime_of period (stop_ - start)), c1,
    (calcSleepCompensation c1 (sleepTime_of period (stop_ - start))).
  split; [apply computeSleepTime_ok; assumption |].
  split; [exact Hc1 |]. split; [exact Hrun |]. split; [reflexivity |].
  split; [exact Hs |].
  split; [| exact Hbreak].
  rewrite calcSleepCompensation_compensation, Hcomp. reflexivity.
Qed.

Lemma cycle_records_witness :
  exists c',
    cycle StatisticsCollector_init 50000000 0 10000000 50000100 false =
      Ok (Continue c', [EvAction; EvPrintSleep 39950000]) /\
    samples c' = 1 /\ compensation c' = 39950000.
Proof.
  destruct (cycle_records StatisticsCollector_init 50000000 0 10000000 50000100)
    as (s & c1 & c' & Hs & _ & Hrun & _ & Hn & Hcomp & _).
  - vm_compute. split; [reflexivity | discriminate].
  - vm_compute. split; discriminate.
  - vm_compute. split; discriminate.
  - vm_compute in Hs. injection Hs as <-.
    exists c'. split; [exact Hrun |]. split; [exact Hn | exact Hcomp].
Defined.

(** The amount recorded is fixed before the wait starts. *)
Lemma recorded_amount_ignores_wait_holds : recorded_amount_ignores_wait.
Proof.
  intros c period start stop_ now now' c1 c2 evs1 evs2 H1 H2.
  unfold cycle in H1, H2.
  destruct (cycle_begin period start stop_) as [[sleepTime evs] |];
    [cbn [bind] in H1, H2 | discriminate].
  unfold cycle_end in H1, H2.
  destruct (calcExecTimeError c start now period) as [d1 |] eqn:E1;
    [cbn [bind] in H1 | discriminate].
  destruct (calcExecTimeError c start now' period) as [d2 |] eqn:E2;
    [cbn [bind] in H2 | discriminate].
  injection H1 as <- _. injection H2 as <- _.
  rewrite !calcSleepCompensation_compensation.
  assert (Hk : forall n d, calcExecTimeError c start n period = Ok d ->
                           compensation d = compensation c).
  { intros n d Hd. unfold calcExecTimeError in Hd.
    destruct (dur_sub n start) as [x |]; [cbn [bind] in Hd | discriminate].
    destruct (dur_sub x period) as [y |]; [cbn [bind] in Hd | discriminate].
    destruct (dur_abs y) as [m |]; [cbn [bind] in Hd | discriminate].
    injection Hd as <-. destruct (exceedsTolerance x period); reflexivity. }
  rewrite (Hk _ _ E1), (Hk _ _ E2). reflexivity.
Qed.




(** ** TimerTask: construction and [stop] *)

Lemma TimerTask_new_rate_zero unit enableStatistics :
  TimerTask_new 0 unit enableStatistics =
  Ok ({| rate_ := 0;
         ratio_ := unit;
         collector := StatisticsCollector_init;
         statisticsEnabled := enableStatistics;
         running_ := false;
         workerThread_ := NoThread |}, []).
Proof. reflexivity. Qed.

Lemma TimerTask_new_spawns rate unit enableStatistics :
  rate <> 0 ->
  TimerTask_new rate unit enableStatistics =
  Ok ({| rate_ := rate;
         ratio_ := unit;
         collector := StatisticsCollector_init;
         statisticsEnabled := enableStatistics;
         running_ := false;
         workerThread_ := Spawned |}, [EvSpawn]).
Proof.
  intros H. unfold TimerTask_new, init. cbn.
  destruct (Z.eqb_spec rate 0); [contradiction | reflexivity].
Qed.

Lemma with_worker_same t :
  with_worker t (running_ t) (workerThread_ t) = t.
Proof. destruct t. reflexivity. Qed.

(** With statistics disabled, [stop] on an instance without a thread does
    nothing at all. *)
Lemma stop_no_thread_quiet inflight t :
  workerThread_ t = NoThread -> statisticsEnabled t = false ->
  stop inflight t = Ok (t, []).
Proof.
  intros Hw Hs. unfold stop, stop_worker. rewrite Hw. cbn [bind].
  rewrite Hs. reflexivity.
Qed.

(** With statistics enabled, it calls [printResults] and nothing else. *)
Lemma stop_no_thread_reports inflight t :
  workerThread_ t = NoThread -> statisticsEnabled t = true ->
  stop inflight t =
  (r <- printResults (collector t) milliseconds ;; Ok (t, [EvReport r])).
Proof.
  intros Hw Hs. unfold stop, stop_worker. rewrite Hw. cbn [bind].
  rewrite Hs. reflexivity.
Qed.

(** C2 (the code misses the case).  Constructing with [rate = 0] creates
    no thread and emits nothing, whatever the unit and the flag.  [stop]
    on that instance is a no-op when statistics are disabled; when they
    are enabled it calls [printResults] on a collector without samples
    and ends in a division by zero. *)
Theorem stop_after_rate_zero unit inflight :
  (forall enableStatistics, exists t,
     TimerTask_new 0 unit enableStatistics = Ok (t, []) /\
     workerThread_ t = NoThread /\ running_ t = false) /\
  (exists t,
     TimerTask_new 0 unit false = Ok (t, []) /\ stop inflight t = Ok (t, [])) /\
  (exists t,
     TimerTask_new 0 unit true = Ok (t, []) /\
     stop inflight t = Fault DivisionByZero).
Proof.
  split; [| split].
  - intros b. eexists. rewrite TimerTask_new_rate_zero.
    split; [reflexivity |]. split; reflexivity.
  - eexists. rewrite TimerTask_new_rate_zero. split; [reflexivity |].
    apply stop_no_thread_quiet; reflexivity.
  - eexists. rewrite TimerTask_new_rate_zero. split; [reflexivity |].
    rewrite stop_no_thread_reports by reflexivity. reflexivity.
Qed.

(** C5, counterexample.  A 50 ms task with statistics records one cycle
    and is stopped; the second [stop] prints the report once more. *)
Lemma stop_is_idempotent_fails : ~ stop_is_idempotent.
Proof.
  intros H.
  specialize (H 50 milliseconds true
                [WorkerBegin; WorkerAction 0 10000000; WorkerTimeout 50000100;
                 OpStop (0, 0)]).
  specialize (H _ _ (0, 0) eq_refl eq_refl).
  vm_compute in H. discriminate H.
Qed.

(** C5, amended.  [stop] on an instance that is already stopped changes
    no state and touches no thread.  With statistics disabled it emits
    nothing; with statistics enabled and at least one sample it emits the
    statistics report again, and nothing else. *)
Theorem stop_when_stopped inflight t :
  workerThread_ t = NoThread ->
  (statisticsEnabled t = false -> stop inflight t = Ok (t, [])) /\
  (statisticsEnabled t = true -> samples (collector t) <> 0 ->
   exists r, printResults (collector t) milliseconds = Ok r /\
             stop inflight t = Ok (t, [EvReport r])).
Proof.
  intros Hw. split.
  - intros Hs. apply stop_no_thread_quiet; assumption.
  - intros Hs Hn.
    destruct (printResults_ok (collector t) milliseconds Hn) as (r & Hr & _).
    exists r. split; [exact Hr |].
    rewrite stop_no_thread_reports by assumption. rewrite Hr. reflexivity.
Qed.

Lemma stop_when_stopped_witness :
  exists evs r,
    history 50 milliseconds true
      [WorkerBegin; WorkerAction 0 10000000; WorkerTimeout 50000100; OpStop (0, 0)]
    = Some (Ok (stopped_after_one_cycle, evs)) /\
    stop (0, 0) stopped_after_one_cycle = Ok (stopped_after_one_cycle, [EvReport r]) /\
    rep_samples r = 1.
Proof.
  destruct (stop_when_stopped (0, 0) stopped_after_one_cycle eq_refl)
    as [_ Hrep].
  destruct Hrep as (r & Hr & Hstop); [reflexivity | vm_compute; discriminate |].
  eexists. exists r. split; [vm_compute; reflexivity |].
  split; [exact Hstop |].
  vm_compute in Hr. injection Hr as <-. reflexivity.
Defined.

(** ** TimerTask: the [running_] flag along a history *)

Lemma bind_ok {A B} (m : outcome A) (k : A -> outcome B) b :
  bind m k = Ok b -> exists a, m = Ok a /\ k a = Ok b.
Proof. destruct m as [a |]; cbn; [eauto | discriminate]. Qed.

Lemma stop_worker_result inflight t t' evs :
  stop_worker inflight t = Ok (t', evs) ->
  (workerThread_ t = NoThread /\ t' = t /\ evs = []) \/
  (workerThread_ t <> NoThread /\ t' = with_worker t false NoThread).
Proof.
  unfold stop_worker. destruct (workerThread_ t) eqn:E; intros H.
  - left. injection H as <- <-. auto.
  - discriminate.
  - right. apply bind_ok in H. destruct H as ([s e] & _ & H).
    injection H as <- _. split; [discriminate | reflexivity].
  - right. injection H as <- _. split; [discriminate | reflexivity].
Qed.

Lemma stop_result inflight t t' evs :
  stop inflight t = Ok (t', evs) ->
  (workerThread_ t = NoThread /\ t' = t) \/
  (workerThread_ t <> NoThread /\ t' = with_worker t false NoThread).
Proof.
  unfold stop. intros H. apply bind_ok in H. destruct H as ([t1 e1] & Hw & H).
  assert (t' = t1) as ->.
  { destruct (statisticsEnabled t1).
    - apply bind_ok in H. destruct H as (r & _ & H). congruence.
    - congruence. }
  apply stop_worker_result in Hw. tauto.
Qed.

Lemma init_result t t' evs :
  init t = Ok (t', evs) ->
  (rate_ t = 0 /\ t' = t /\ evs = []) \/
  (rate_ t <> 0 /\ workerThread_ t = NoThread /\
   t' = with_worker t (running_ t) Spawned /\ evs = [EvSpawn]).
Proof.
  unfold init. destruct (Z.eqb_spec (rate_ t) 0) as [Hz | Hnz]; intros H.
  - left. injection H as <- <-. auto.
  - right. destruct (workerThread_ t); try discriminate.
    injection H as <- <-. auto.
Qed.

(** A [stop] that returns leaves the instance without thread and with the
    flag down; nothing else changes. *)
Lemma stop_stopped inflight t t' evs :
  flag_tracks_worker t ->
  stop inflight t = Ok (t', evs) ->
  workerThread_ t' = NoThread /\ running_ t' = false /\
  rate_ t' = rate_ t /\ ratio_ t' = ratio_ t /\ collector t' = collector t /\
  statisticsEnabled t' = statisticsEnabled t.
Proof.
  intros Hinv H. apply stop_result in H.
  destruct H as [[Hw ->] | [Hw ->]].
  - unfold flag_tracks_worker in Hinv. rewrite Hw in Hinv. cbn in Hinv. auto 6.
  - cbn. auto 6.
Qed.

Lemma restart_result inflight t t' evs :
  flag_tracks_worker t ->
  restart inflight t = Ok (t', evs) ->
  workerThread_ t' = (if rate_ t =? 0 then NoThread else Spawned) /\
  running_ t' = false.
Proof.
  intros Hinv H. unfold restart in H.
  apply bind_ok in H. destruct H as ([t1 e1] & Hs & H).
  apply bind_ok in H. destruct H as ([t2 e2] & Hi & H).
  injection H as <- _.
  destruct (stop_stopped _ _ _ _ Hinv Hs) as (Hw & Hr & Hrate & _).
  apply init_result in Hi.
  destruct Hi as [(Hz & -> & _) | (Hnz & _ & -> & _)]; rewrite <- Hrate.
  - rewrite Hz. cbn. auto.
  - destruct (Z.eqb_spec (rate_ t1) 0); [contradiction |]. cbn. auto.
Qed.

Lemma setRate_result rate unit imediate inflight t t' evs :
  flag_tracks_worker t ->
  setRate rate unit imediate inflight t = Ok (t', evs) ->
  if imediate
  then workerThread_ t' = (if rate =? 0 then NoThread else Spawned) /\
       running_ t' = false
  else workerThread_ t' = workerThread_ t /\ running_ t' = running_ t.
Proof.
  intros Hinv H. unfold setRate in H. destruct imediate.
  - apply restart_result in H; [exact H | exact Hinv].
  - injection H as <- _. cbn. auto.
Qed.

(** What one step does to the flag and to the thread. *)
Lemma step_flag o t t' evs :
  flag_tracks_worker t ->
  step o t = Some (Ok (t', evs)) ->
  flag_tracks_worker t' /\
  (running_ t = false -> running_ t' = true -> o = WorkerBegin) /\
  (running_ t = true -> running_ t' = false -> stops o = true) /\
  (workerThread_ t = NoThread -> running_ t = false -> restarts o = false ->
   workerThread_ t' = NoThread /\ running_ t' = false).
Proof.
  intros Hinv H. unfold flag_tracks_worker in *.
  destruct o as [inflight | rate unit imediate inflight | | start stop_ | now];
    cbn [step] in H.
  - injection H as H. apply (stop_stopped _ _ _ _ Hinv) in H.
    destruct H as (Hw & Hr & _). rewrite Hw, Hr. cbn.
    repeat split; congruence.
  - injection H as H. apply (setRate_result _ _ _ _ _ _ _ Hinv) in H.
    destruct imediate; destruct H as [Hw Hr]; rewrite Hw, Hr.
    + cbn [restarts stops].
      destruct (rate =? 0); cbn; repeat split; congruence.
    + cbn. repeat split; congruence.
  - unfold worker_begin in H. destruct (workerThread_ t); try discriminate.
    injection H as <- _. cbn. repeat split; congruence.
  - unfold worker_action in H.
    destruct (workerThread_ t) as [| | full |] eqn:Ew; try discriminate.
    injection H as H. apply bind_ok in H. destruct H as ([s e] & _ & H).
    injection H as <- _. cbn in *. repeat split; congruence.
  - unfold worker_timeout in H.
    destruct (workerThread_ t) as [| | | full start s] eqn:Ew; try discriminate.
    destruct (running_ t) eqn:Er; try discriminate.
    injection H as H. apply bind_ok in H. destruct H as (c & _ & H).
    injection H as <- _. cbn in *. rewrite Er. repeat split; congruence.
Qed.

Lemma run_app ops1 : forall ops2 t out,
  run (ops1 ++ ops2) t out =
  match run ops1 t out with
  | Some (Ok (t1, out1)) => run ops2 t1 out1
  | r => r
  end.
Proof.
  induction ops1 as [| o ops1 IH]; intros ops2 t out; cbn [app run].
  - reflexivity.
  - destruct (step o t) as [[[t' evs] | f] |]; auto.
Qed.

Lemma run_flag ops : forall t out t' out',
  flag_tracks_worker t ->
  run ops t out = Some (Ok (t', out')) ->
  flag_tracks_worker t'.
Proof.
  induction ops as [| o ops IH]; intros t out t' out' Hinv H; cbn [run] in H.
  - congruence.
  - destruct (step o t) as [[[t1 evs] | f] |] eqn:E; try discriminate.
    apply (IH _ _ _ _ (proj1 (step_flag _ _ _ _ Hinv E)) H).
Qed.

Lemma TimerTask_new_flag rate unit enableStatistics t evs :
  TimerTask_new rate unit enableStatistics = Ok (t, evs) ->
  flag_tracks_worker t.
Proof.
  unfold TimerTask_new. intros H. apply init_result in H.
  destruct H as [(_ & -> & _) | (_ & _ & -> & _)]; reflexivity.
Qed.

Lemma history_flag rate unit enableStatistics ops t evs :
  history rate unit enableStatistics ops = Some (Ok (t, evs)) ->
  flag_tracks_worker t.
Proof.
  unfold history.
  destruct (TimerTask_new rate unit enableStatistics) as [[t0 e0] |] eqn:E;
    [| discriminate].
  apply run_flag. eapply TimerTask_new_flag; eassumption.
Qed.

Lemma history_app rate unit enableStatistics ops1 ops2 :
  history rate unit enableStatistics (ops1 ++ ops2) =
  match history rate unit enableStatistics ops1 with
  | Some (Ok (t1, out1)) => run ops2 t1 out1
  | r => r
  end.
Proof.
  unfold history.
  destruct (TimerTask_new rate unit enableStatistics) as [[t0 e0] |];
    [apply run_app | reflexivity].
Qed.

Lemma run_stays_stopped ops : forall t out t' out',
  workerThread_ t = NoThread -> running_ t = false ->
  forallb (fun o => negb (restarts o)) ops = true ->
  run ops t out = Some (Ok (t', out')) ->
  workerThread_ t' = NoThread /\ running_ t' = false.
Proof.
  induction ops as [| o ops IH]; intros t out t' out' Hw Hr Hq H;
    cbn [run forallb] in *.
  - injection H as <- _. auto.
  - apply andb_true_iff in Hq. destruct Hq as [Hq1 Hq2].
    apply negb_true_iff in Hq1.
    destruct (step o t) as [[[t1 evs] | f] |] eqn:E; try discriminate.
    assert (Hinv : flag_tracks_worker t).
    { unfold flag_tracks_worker. rewrite Hw, Hr. reflexivity. }
    destruct (step_flag _ _ _ _ Hinv E) as (_ & _ & _ & Hkeep).
    destruct (Hkeep Hw Hr Hq1) as [Hw1 Hr1].
    apply (IH _ _ _ _ Hw1 Hr1 Hq2 H).
Qed.

(** C6, counterexample.  A 1 ms task is started and stopped; [setRate]
    with [imediate = true] then creates a new worker, which sets
    [running_] again. *)
Lemma never_resurrected_fails : ~ never_resurrected.
Proof.
  intros H.
  specialize (H 1 milliseconds false [WorkerBegin] (0, 0)
                [OpSetRate 1 milliseconds true (0, 0); WorkerBegin]).
  specialize (H _ _ _ _ eq_refl eq_refl).
  vm_compute in H. discriminate H.
Qed.

(** C6, amended.  Along every history of an instance: [running_] goes
    from false to true only when a worker enters its loop, and from true
    to false only in [stop] (called directly or through [setRate] with
    [imediate = true]); after a [stop] it is false, and it stays false as
    long as no [setRate] with [imediate = true] and a rate other than zero
    restarts the instance. *)
Theorem running_flag_transitions rate unit enableStatistics ops t out :
  history rate unit enableStatistics ops = Some (Ok (t, out)) ->
  (forall o t' evs, step o t = Some (Ok (t', evs)) ->
     (running_ t = false -> running_ t' = true -> o = WorkerBegin) /\
     (running_ t = true -> running_ t' = false -> stops o = true)) /\
  (forall inflight t1 evs, step (OpStop inflight) t = Some (Ok (t1, evs)) ->
     running_ t1 = false /\
     forall ops2 t2 out2,
       forallb (fun o => negb (restarts o)) ops2 = true ->
       run ops2 t1 (out ++ evs) = Some (Ok (t2, out2)) ->
       running_ t2 = false).
Proof.
  intros H. apply history_flag in H. split.
  - intros o t' evs Hstep.
    destruct (step_flag _ _ _ _ H Hstep) as (_ & Hup & Hdown & _). auto.
  - intros inflight t1 evs Hstep. cbn [step] in Hstep. injection Hstep as Hstop.
    destruct (stop_stopped _ _ _ _ H Hstop) as (Hw & Hr & _).
    split; [exact Hr |].
    intros ops2 t2 out2 Hq Hrun.
    apply (run_stays_stopped _ _ _ _ _ Hw Hr Hq Hrun).
Qed.

Lemma running_flag_transitions_witness :
  exists t out t1 evs t2 out2,
    history 1 milliseconds false [WorkerBegin] = Some (Ok (t, out)) /\
    running_ t = true /\
    step (OpStop (0, 0)) t = Some (Ok (t1, evs)) /\
    running_ t1 = false /\
    run [OpSetRate 5 seconds false (0, 0); OpStop (0, 0);
         OpSetRate 0 seconds true (0, 0)] t1 (out ++ evs)
      = Some (Ok (t2, out2)) /\
    running_ t2 = false.
Proof.
  pose (t := with_worker
               {| rate_ := 1; ratio_ := milliseconds;
                  collector := StatisticsCollector_init;
                  statisticsEnabled := false; running_ := false;
                  workerThread_ := Spawned |} true (AtLoopHead 1000000)).
  pose (t1 := with_worker t false NoThread).
  pose (t2 := with_rate t1 0 seconds).
  pose (evs := [EvNotify; EvAction; EvPrintSleep 950000; EvJoin]).
  assert (H : history 1 milliseconds false [WorkerBegin] = Some (Ok (t, [EvSpawn])))
    by reflexivity.
  assert (Hstep : step (OpStop (0, 0)) t = Some (Ok (t1, evs))) by reflexivity.
  assert (Hrun : run [OpSetRate 5 seconds false (0, 0); OpStop (0, 0);
                      OpSetRate 0 seconds true (0, 0)] t1 ([EvSpawn] ++ evs)
                 = Some (Ok (t2, [EvSpawn] ++ evs))) by reflexivity.
  destruct (running_flag_transitions 1 milliseconds false [WorkerBegin] t [EvSpawn] H)
    as [_ Hstop].
  destruct (Hstop (0, 0) t1 evs Hstep) as [Hdown Hstay].
  exists t, [EvSpawn], t1, evs, t2, ([EvSpawn] ++ evs).
  split; [exact H |]. split; [reflexivity |].
  split; [exact Hstep |]. split; [exact Hdown |].
  split; [exact Hrun |].
  exact (Hstay [OpSetRate 5 seconds false (0, 0); OpStop (0, 0);
                OpSetRate 0 seconds true (0, 0)] t2 _ eq_refl Hrun).
Defined.

(** ** TimerTask: the report on [stop] *)

(** [stop_worker] does not touch the collector or the statistics flag. *)
Lemma stop_worker_keeps inflight t t' evs :
  stop_worker inflight t = Ok (t', evs) ->
  collector t' = collector t /\ statisticsEnabled t' = statisticsEnabled t.
Proof.
  intros H. apply stop_worker_result in H.
  destruct H as [(_ & -> & _) | (_ & ->)]; split; reflexivity.
Qed.

(** With statistics enabled and at least one sample, a [stop] that gets
    its worker to leave ends with the report, whether or not a thread was
    running. *)
Lemma stop_reports inflight t t1 evs :
  statisticsEnabled t = true -> samples (collector t) <> 0 ->
  stop_worker inflight t = Ok (t1, evs) ->
  exists r, printResults (collector t) milliseconds = Ok r /\
            stop inflight t = Ok (t1, evs ++ [EvReport r]).
Proof.
  intros Hs Hn Hw.
  destruct (stop_worker_keeps _ _ _ _ Hw) as [Hc He].
  destruct (printResults_ok (collector t) milliseconds Hn) as (r & Hr & _).
  exists r. split; [exact Hr |].
  unfold stop. rewrite Hw. cbn [bind]. rewrite He, Hs, Hc, Hr. reflexivity.
Qed.

(** The same through [setRate] with [imediate = true]: the report comes
    before the new worker is created. *)
Lemma setRate_reports rate unit inflight t t1 evs :
  statisticsEnabled t = true -> samples (collector t) <> 0 ->
  stop_worker inflight (with_rate t rate unit) = Ok (t1, evs) ->
  exists r t2 evs2,
    printResults (collector t) milliseconds = Ok r /\
    init t1 = Ok (t2, evs2) /\
    setRate rate unit true inflight t = Ok (t2, (evs ++ [EvReport r]) ++ evs2).
Proof.
  intros Hs Hn Hw.
  destruct (stop_reports inflight (with_rate t rate unit) t1 evs Hs Hn Hw)
    as (r & Hr & Hstop).
  assert (Hj : workerThread_ t1 = NoThread).
  { apply stop_worker_result in Hw.
    destruct Hw as [(Hw & -> & _) | (_ & ->)]; [exact Hw | reflexivity]. }
  assert (Hi : exists t2 evs2, init t1 = Ok (t2, evs2)).
  { unfold init. rewrite Hj. cbn [joinable].
    destruct (rate_ t1 =? 0); eauto. }
  destruct Hi as (t2 & evs2 & Hi).
  exists r, t2, evs2. split; [exact Hr |]. split; [exact Hi |].
  unfold setRate, restart. rewrite Hstop. cbn [bind]. rewrite Hi. reflexivity.
Qed.

(** C10 (the code misses the case).  [stop] reaches [printResults]
    whenever statistics are enabled, but with no sample recorded yet the
    call divides by zero and no report is written: neither [stop] nor
    [setRate] with [imediate = true] returns, and when no action is in
    flight the fault is the division by zero. *)
Theorem stop_without_samples inflight t :
  statisticsEnabled t = true ->
  samples (collector t) = 0 ->
  (exists f, stop inflight t = Fault f) /\
  (forall rate unit, exists f, setRate rate unit true inflight t = Fault f) /\
  (in_loop (workerThread_ t) = false \/ (exists p s w, workerThread_ t = Waiting p s w) ->
   workerThread_ t <> Spawned ->
   stop inflight t = Fault DivisionByZero).
Proof.
  intros Hs Hn.
  assert (Hstop : forall u, statisticsEnabled u = true ->
                            samples (collector u) = 0 ->
                            exists f, stop inflight u = Fault f).
  { intros u Hsu Hnu. unfold stop.
    destruct (stop_worker inflight u) as [[t1 evs] | f] eqn:Hw; cbn [bind].
    - destruct (stop_worker_keeps _ _ _ _ Hw) as [Hc He].
      rewrite He, Hsu, Hc, (printResults_div_zero _ _ Hnu). cbn. eauto.
    - eauto. }
  split; [apply Hstop; assumption |]. split.
  - intros rate unit. unfold setRate, restart.
    destruct (Hstop (with_rate t rate unit) Hs Hn) as [f Hf].
    rewrite Hf. cbn. eauto.
  - intros Hw Hsp. unfold stop, stop_worker.
    destruct (workerThread_ t) as [| | full | p s w] eqn:E.
    + cbn [bind]. rewrite Hs, (printResults_div_zero _ _ Hn). reflexivity.
    + contradiction.
    + destruct Hw as [Hw | (p & s & w & Hw)]; discriminate.
    + cbn [bind]. cbn [statisticsEnabled with_worker collector].
      rewrite Hs, (printResults_div_zero _ _ Hn). reflexivity.
Qed.

Lemma stop_without_samples_witness :
  history 50 milliseconds true
    [WorkerBegin; WorkerAction 0 10000000; OpSetRate 100 milliseconds true (0, 0)]
  = Some (Fault DivisionByZero) /\
  history 0 milliseconds true [OpStop (0, 0)] = Some (Fault DivisionByZero) /\
  exists t, history 50 milliseconds true [WorkerBegin; WorkerAction 0 10000000]
            = Some (Ok (t, [EvSpawn; EvAction; EvPrintSleep 39950000])) /\
            stop (0, 0) t = Fault DivisionByZero.
Proof.
  split; [vm_compute; reflexivity |].
  split; [vm_compute; reflexivity |].
  eexists. split; [vm_compute; reflexivity |].
  eapply (stop_without_samples (0, 0)).
  - reflexivity.
  - reflexivity.
  - right. cbn. eauto.
  - cbn. discriminate.
Defined.

(** ** StatisticsCollector: what a sequence of calls accumulates *)

Lemma wrap64_add_l a b : wrap64 (wrap64 a + b) = wrap64 (a + b).
Proof. unfold wrap64. apply Zplus_mod_idemp_l. Qed.

Lemma list_max_nonneg l : 0 <= list_max l.
Proof. unfold list_max. induction l as [| e l IH]; cbn [fold_right]; lia. Qed.

Lemma list_min_le l : list_min l <= uint64_max.
Proof. unfold list_min. induction l as [| e l IH]; cbn [fold_right]; lia. Qed.

Lemma error_of_range call :
  call_in_range call -> 0 <= error_of call <= int64_max.
Proof.
  destruct call as [[start end_] expected]. cbn. intros [H1 H2]. int64.
Qed.

Lemma calcExecTimeError_call c call :
  call_in_range call ->
  calcExecTimeError c (fst (fst call)) (snd (fst call)) (snd call) =
  Ok (let c2 := considerVariance (accumulate c (error_of call)) (error_of call) in
      if exceeds_of call then countExcession c2 else c2).
Proof.
  destruct call as [[start end_] expected]. cbn [fst snd call_in_range].
  intros [H1 H2]. rewrite calcExecTimeError_ok by assumption. reflexivity.
Qed.

Lemma recordCycles_fields calls : forall c,
  Forall call_in_range calls ->
  collector_in_range c ->
  exists c',
    recordCycles calls c = Ok c' /\
    collector_in_range c' /\
    samples c' = wrap64 (samples c + Z.of_nat (List.length calls)) /\
    acummulation c' = wrap64 (acummulation c + list_sum (map error_of calls)) /\
    maxVariance c' = Z.max (list_max (map error_of calls)) (maxVariance c) /\
    minVariance c' = Z.min (list_min (map error_of calls)) (minVariance c) /\
    toleraceExcessionCount c' =
      wrap64 (toleraceExcessionCount c
              + Z.of_nat (List.length (filter exceeds_of calls))) /\
    compensation c' = compensation c.
Proof.
  induction calls as [| call rest IH]; intros c Hall Hc.
  - exists c. destruct Hc as (Hs & Ha & Hk & Hmax & Hmin & Ht).
    cbn [recordCycles List.length map filter list_sum list_max list_min
         fold_right Z.of_nat].
    rewrite !Z.add_0_r, !wrap64_small by assumption.
    repeat split; try tauto; lia.
  - inversion Hall as [| ? ? Hcall Hrest]; subst.
    pose proof (error_of_range call Hcall) as He.
    pose proof (calcExecTimeError_call c call Hcall) as Hstep.
    destruct call as [[start end_] expected]. cbn [fst snd] in Hstep.
    cbn [recordCycles]. rewrite Hstep. cbn [bind]. cbv zeta.
    set (e := error_of (start, end_, expected)) in *.
    set (c1 := if exceeds_of (start, end_, expected)
               then countExcession (considerVariance (accumulate c e) e)
               else considerVariance (accumulate c e) e).
    destruct Hc as (Hs & Ha & Hk & Hmax & Hmin & Ht).
    assert (Hc1 : collector_in_range c1 /\
                  samples c1 = wrap64 (samples c + 1) /\
                  acummulation c1 = wrap64 (acummulation c + e) /\
                  maxVariance c1 = Z.max e (maxVariance c) /\
                  minVariance c1 = Z.min e (minVariance c) /\
                  toleraceExcessionCount c1 =
                    wrap64 (toleraceExcessionCount c
                            + (if exceeds_of (start, end_, expected) then 1 else 0)) /\
                  compensation c1 = compensation c).
    { subst c1. clearbody e. unfold collector_in_range.
      pose proof (wrap64_range (samples c + 1)).
      pose proof (wrap64_range (acummulation c + e)).
      pose proof (wrap64_range (toleraceExcessionCount c + 1)).
      destruct (exceeds_of (start, end_, expected)); cbn;
        rewrite ?Z.add_0_r, ?(wrap64_small (toleraceExcessionCount c)) by assumption;
        repeat split; try assumption; try lia; int64. }
    destruct Hc1 as (Hr1 & Hs1 & Ha1 & Hmax1 & Hmin1 & Ht1 & Hk1).
    destruct (IH c1 Hrest Hr1) as (c' & Hrun & Hr' & Hs' & Ha' & Hmax' & Hmin' & Ht' & Hk').
    exists c'. split; [exact Hrun |]. split; [exact Hr' |].
    cbn [List.length map filter list_sum list_max list_min fold_right].
    fold (list_sum (map error_of rest)). fold (list_max (map error_of rest)).
    fold (list_min (map error_of rest)). fold e.
    split; [rewrite Hs', Hs1, wrap64_add_l; f_equal; lia |].
    split; [rewrite Ha', Ha1, wrap64_add_l; f_equal; lia |].
    split; [rewrite Hmax', Hmax1; lia |].
    split; [rewrite Hmin', Hmin1; lia |].
    split; [| rewrite Hk', Hk1; reflexivity].
    rewrite Ht', Ht1, wrap64_add_l.
    destruct (exceeds_of (start, end_, expected)); cbn [List.length]; f_equal; lia.
Qed.

Lemma StatisticsCollector_init_in_range : collector_in_range StatisticsCollector_init.
Proof. unfold collector_in_range. cbn. int64. Qed.

(** X1.  Calls of [calcExecTimeError] on a fresh collector only
    accumulate: after any sequence of calls in range, [samples] is the
    number of calls and [acummulation] the sum of the error samples (both
    modulo 2^64), [maxVariance] and [minVariance] are the largest and the
    smallest error sample, [toleraceExcessionCount] is the number of calls
    that failed the tolerance test, and [compensation] is still zero. *)
Theorem recordCycles_accumulates calls :
  Forall call_in_range calls ->
  exists c,
    recordCycles calls StatisticsCollector_init = Ok c /\
    samples c = wrap64 (Z.of_nat (List.length calls)) /\
    acummulation c = wrap64 (list_sum (map error_of calls)) /\
    maxVariance c = list_max (map error_of calls) /\
    minVariance c = list_min (map error_of calls) /\
    toleraceExcessionCount c =
      wrap64 (Z.of_nat (List.length (filter exceeds_of calls))) /\
    compensation c = 0.
Proof.
  intros Hall.
  destruct (recordCycles_fields calls _ Hall StatisticsCollector_init_in_range)
    as (c & Hrun & _ & Hs & Ha & Hmax & Hmin & Ht & Hk).
  exists c. split; [exact Hrun |].
  pose proof (list_max_nonneg (map error_of calls)).
  pose proof (list_min_le (map error_of calls)).
  cbn [StatisticsCollector_init samples acummulation maxVariance minVariance
       toleraceExcessionCount compensation] in *.
  repeat split; try assumption; lia.
Qed.

Lemma recordCycles_accumulates_witness :
  exists c,
    recordCycles [(0, 60000000, 50000000); (0, 49000000, 50000000);
                  (0, 52000000, 50000000)] StatisticsCollector_init = Ok c /\
    samples c = 3 /\ acummulation c = 13000000 /\
    maxVariance c = 10000000 /\ minVariance c = 1000000 /\
    toleraceExcessionCount c = 1.
Proof.
  destruct (recordCycles_accumulates
              [(0, 60000000, 50000000); (0, 49000000, 50000000);
               (0, 52000000, 50000000)])
    as (c & Hrun & Hs & Ha & Hmax & Hmin & Ht & _).
  - repeat constructor; vm_compute; discriminate.
  - exists c. split; [exact Hrun |].
    split; [exact Hs |]. split; [exact Ha |]. split; [exact Hmax |].
    split; [exact Hmin | exact Ht].
Defined.

Lemma list_sum_le_max l :
  list_sum l <= Z.of_nat (List.length l) * list_max l.
Proof.
  unfold list_sum, list_max.
  induction l as [| e l IH]; cbn [fold_right List.length]; [lia |].
  rewrite Nat2Z.inj_succ.
  pose proof (list_max_nonneg l) as Hn. unfold list_max in Hn. nia.
Qed.

Lemma list_sum_ge_min l :
  Z.of_nat (List.length l) * list_min l <= list_sum l.
Proof.
  unfold list_sum, list_min.
  induction l as [| e l IH]; cbn [fold_right List.length]; [lia |].
  rewrite Nat2Z.inj_succ. nia.
Qed.

Lemma list_sum_errors_nonneg calls :
  Forall call_in_range calls -> 0 <= list_sum (map error_of calls).
Proof.
  unfold list_sum. induction 1 as [| call rest Hcall _ IH]; cbn [map fold_right]; [lia |].
  pose proof (error_of_range call Hcall). lia.
Qed.

(** X2.  After at least one call, and as long as neither the number of
    calls nor the sum of the error samples has wrapped, [printResults]
    returns a report for every unit; the average deviation it shows is
    the sum of the error samples divided by their number, rounded down to
    whole nanoseconds before it is scaled, and that average lies between
    [minVariance] and [maxVariance]. *)
Theorem report_average_between calls samplingUnit :
  calls <> [] ->
  Forall call_in_range calls ->
  Z.of_nat (List.length calls) <= uint64_max ->
  list_sum (map error_of calls) <= uint64_max ->
  exists c r,
    recordCycles calls StatisticsCollector_init = Ok c /\
    printResults c samplingUnit = Ok r /\
    rep_samples r = Z.of_nat (List.length calls) /\
    rep_deviation r =
      convert (list_sum (map error_of calls) / Z.of_nat (List.length calls))
              samplingUnit /\
    minVariance c
      <= list_sum (map error_of calls) / Z.of_nat (List.length calls)
      <= maxVariance c.
Proof.
  intros Hne Hall Hn Hsum.
  destruct (recordCycles_fields calls _ Hall StatisticsCollector_init_in_range)
    as (c & Hrun & _ & Hs & Ha & Hmax & Hmin & _ & _).
  cbn [StatisticsCollector_init samples acummulation maxVariance minVariance] in *.
  pose proof (list_sum_errors_nonneg calls Hall) as Hpos.
  assert (Hlen : 0 < Z.of_nat (List.length calls)).
  { destruct calls; [contradiction | cbn [List.length]; lia]. }
  rewrite Z.add_0_l in Hs, Ha.
  rewrite wrap64_small in Hs by lia. rewrite wrap64_small in Ha by lia.
  assert (Hr : printResults c samplingUnit =
               Ok {| rep_samples := samples c;
                     rep_deviation := convert (acummulation c / samples c) samplingUnit;
                     rep_compensation := convert (compensation c / samples c) samplingUnit;
                     rep_maxVariance := convert (maxVariance c) samplingUnit;
                     rep_minVariance := convert (minVariance c) samplingUnit;
                     rep_unitName := unitName samplingUnit;
                     rep_toleranceExceeded := toleraceExcessionCount c |}).
  { unfold printResults. rewrite !udiv_ok by lia. reflexivity. }
  eexists c, _. split; [exact Hrun |]. split; [exact Hr |].
  cbn [rep_samples rep_deviation]. rewrite Hs, Ha.
  split; [reflexivity |]. split; [reflexivity |].
  pose proof (list_sum_le_max (map error_of calls)) as Hup.
  pose proof (list_sum_ge_min (map error_of calls)) as Hlo.
  rewrite length_map in Hup, Hlo.
  pose proof (list_max_nonneg (map error_of calls)).
  pose proof (list_min_le (map error_of calls)).
  rewrite Hmax, Hmin, Z.max_l, Z.min_l by assumption. split.
  - apply Z.div_le_lower_bound; [exact Hlen | exact Hlo].
  - apply Z.div_le_upper_bound; [exact Hlen | exact Hup].
Qed.

Lemma report_average_between_witness :
  exists c r,
    recordCycles [(0, 60000000, 50000000); (0, 49000000, 50000000);
                  (0, 52000001, 50000000)] StatisticsCollector_init = Ok c /\
    printResults c milliseconds = Ok r /\
    rep_samples r = 3 /\
    rep_deviation r = convert 4333333 milliseconds /\
    minVariance c <= 4333333 <= maxVariance c.
Proof.
  destruct (report_average_between
              [(0, 60000000, 50000000); (0, 49000000, 50000000);
               (0, 52000001, 50000000)] milliseconds)
    as (c & r & Hrun & Hr & Hs & Hd & Hb).
  - discriminate.
  - repeat constructor; vm_compute; discriminate.
  - vm_compute. discriminate.
  - vm_compute. discriminate.
  - exists c, r. split; [exact Hrun |]. split; [exact Hr |].
    split; [exact Hs |]. split; [exact Hd | exact Hb].
Defined.

(** ** StatisticsCollector: the compensation accumulator *)

Lemma recordCompensations_compensation amounts : forall c,
  0 <= compensation c <= uint64_max ->
  compensation (recordCompensations amounts c) =
  wrap64 (compensation c + list_sum amounts).
Proof.
  unfold recordCompensations, list_sum.
  induction amounts as [| a rest IH]; intros c Hc; cbn [fold_left fold_right].
  - rewrite Z.add_0_r, wrap64_small by assumption. reflexivity.
  - rewrite IH, calcSleepCompensation_compensation, wrap64_add_l.
    + f_equal. lia.
    + rewrite calcSleepCompensation_compensation. apply wrap64_range.
Qed.

Lemma recordCompensations_frame amounts : forall c,
  samples (recordCompensations amounts c) = samples c /\
  acummulation (recordCompensations amounts c) = acummulation c /\
  maxVariance (recordCompensations amounts c) = maxVariance c /\
  minVariance (recordCompensations amounts c) = minVariance c /\
  toleraceExcessionCount (recordCompensations amounts c) = toleraceExcessionCount c.
Proof.
  unfold recordCompensations.
  induction amounts as [| a rest IH]; intros c; cbn [fold_left]; [tauto |].
  destruct (IH (calcSleepCompensation c a)) as (H1 & H2 & H3 & H4 & H5).
  rewrite H1, H2, H3, H4, H5. cbn. tauto.
Qed.

(** X3.  [calcSleepCompensation] adds signed amounts into an unsigned
    accumulator without losing them: after any sequence of calls on a
    fresh collector, [compensation] is the signed sum of the amounts
    modulo 2^64, so it is exactly that sum whenever the sum lies in
    [0, 2^64), whatever the intermediate values wrapped to; no other
    field changes. *)
Theorem recordCompensations_sum amounts :
  0 <= list_sum amounts <= uint64_max ->
  compensation (recordCompensations amounts StatisticsCollector_init)
    = list_sum amounts /\
  samples (recordCompensations amounts StatisticsCollector_init) = 0 /\
  acummulation (recordCompensations amounts StatisticsCollector_init) = 0 /\
  maxVariance (recordCompensations amounts StatisticsCollector_init) = 0 /\
  minVariance (recordCompensations amounts StatisticsCollector_init) = uint64_max /\
  toleraceExcessionCount (recordCompensations amounts StatisticsCollector_init) = 0.
Proof.
  intros H. split.
  - rewrite recordCompensations_compensation by (cbn; int64).
    cbn [StatisticsCollector_init compensation].
    rewrite Z.add_0_l. apply wrap64_small. exact H.
  - apply (recordCompensations_frame amounts StatisticsCollector_init).
Qed.

Lemma recordCompensations_sum_witness :
  compensation (calcSleepCompensation StatisticsCollector_init (-50000))
    = 2 ^ 64 - 50000 /\
  compensation (recordCompensations [-50000; 950000; -50000] StatisticsCollector_init)
    = 850000.
Proof.
  split; [reflexivity |].
  apply (recordCompensations_sum [-50000; 950000; -50000]).
  vm_compute. split; discriminate.
Defined.

(** ** The worker loop: where the wait ends *)

(** X4.  For a period [> 0] the sleep time of a cycle is never longer
    than the period less the 50 microseconds and never below [-50000];
    after an overrun it is strictly above [-50000].  Without the offset,
    the time of the action plus the wait is a whole number of periods: the
    wait is aimed at the next period boundary counted from the start of
    the cycle. *)
Theorem sleepTime_aims_at_boundary period elapsed :
  0 < period <= int64_max ->
  0 <= elapsed <= int64_max ->
  exists sleepTime,
    computeSleepTime period elapsed = Ok sleepTime /\
    -50000 <= sleepTime <= period - 50000 /\
    (period < elapsed -> -50000 < sleepTime) /\
    (elapsed + (sleepTime + 50000)) mod period = 0.
Proof.
  intros Hp He. exists (sleepTime_of period elapsed).
  split; [apply computeSleepTime_ok; assumption |].
  unfold sleepTime_of.
  destruct (Z.leb_spec elapsed period) as [Hle | Hgt].
  - split; [lia |]. split; [lia |].
    replace (elapsed + (period - elapsed - 50000 + 50000)) with period by lia.
    apply Z.mod_same. lia.
  - pose proof (Z.mod_pos_bound (Z.abs (period - elapsed)) period ltac:(lia)) as Hr.
    split; [lia |]. split; [lia |].
    replace (Z.abs (period - elapsed)) with (elapsed - period) in * by lia.
    pose proof (Z.div_mod (elapsed - period) period ltac:(lia)) as Hd.
    replace (elapsed + (period - (elapsed - period) mod period - 50000 + 50000))
      with (((elapsed - period) / period + 2) * period) by lia.
    apply Z.mod_mul. lia.
Qed.

Lemma sleepTime_aims_at_boundary_witness :
  computeSleepTime 50000000 130000000 = Ok 19950000 /\
  (130000000 + (19950000 + 50000)) mod 50000000 = 0.
Proof.
  destruct (sleepTime_aims_at_boundary 50000000 130000000)
    as (s & Hs & _ & _ & Ha).
  - vm_compute. split; [reflexivity | discriminate].
  - vm_compute. split; discriminate.
  - assert (E : computeSleepTime 50000000 130000000 = Ok 19950000) by reflexivity.
    rewrite E in Hs. injection Hs as <-. split; [exact E | exact Ha].
Defined.

(** X5.  Only the overrun inside the current period counts: once the
    action has taken more than one period, a whole period more changes
    nothing.  An action that takes exactly one period leaves a sleep time
    of [-50000], one that takes exactly [k >= 2] periods a sleep time of
    a full period less the 50 microseconds. *)
Theorem sleepTime_skips_whole_periods period elapsed k :
  0 < period ->
  period < elapsed ->
  elapsed + period <= int64_max ->
  2 <= k -> k * period <= int64_max ->
  computeSleepTime period (elapsed + period) = computeSleepTime period elapsed /\
  computeSleepTime period period = Ok (-50000) /\
  computeSleepTime period (k * period) = Ok (period - 50000).
Proof.
  intros Hp Hgt Hmax Hk Hkp.
  rewrite !computeSleepTime_ok by nia.
  unfold sleepTime_of. split; [| split].
  - destruct (Z.leb_spec (elapsed + period) period); [lia |].
    destruct (Z.leb_spec elapsed period); [lia |].
    do 2 f_equal. f_equal.
    replace (Z.abs (period - (elapsed + period))) with (elapsed - period + 1 * period) by lia.
    replace (Z.abs (period - elapsed)) with (elapsed - period) by lia.
    apply Z.mod_add. lia.
  - rewrite Z.leb_refl. f_equal. lia.
  - destruct (Z.leb_spec (k * period) period); [nia |].
    replace (Z.abs (period - k * period)) with ((k - 1) * period) by nia.
    rewrite Z.mod_mul by lia. f_equal. lia.
Qed.

Lemma sleepTime_skips_whole_periods_witness :
  computeSleepTime 50000000 110000000 = computeSleepTime 50000000 60000000 /\
  computeSleepTime 50000000 50000000 = Ok (-50000) /\
  computeSleepTime 50000000 150000000 = Ok 49950000.
Proof.
  apply (sleepTime_skips_whole_periods 50000000 60000000 3);
    vm_compute; (reflexivity || discriminate).
Defined.

(** ** TimerTask: the period of a new worker *)

Lemma to_int64_small z : 0 <= z <= int64_max -> to_int64 z = z.
Proof.
  intros H. unfold to_int64. destruct (Z.leb_spec z int64_max); [reflexivity | lia].
Qed.

Lemma full_sleep_time_exact unit rate :
  0 <= unit_value unit * rate <= int64_max ->
  full_sleep_time unit rate = unit_value unit * rate.
Proof.
  intros H. unfold full_sleep_time.
  rewrite wrap64_small by int64. apply to_int64_small. exact H.
Qed.

(** X6.  As long as [rate * unit] fits the signed 64-bit count, a new
    instance runs with a period of exactly [rate * unit] nanoseconds: the
    constructor creates the worker, the worker sets [running_], and its
    first cycle waits for the sleep time computed from that period. *)
Theorem first_cycle rate unit enableStatistics start stop_ :
  0 < unit_value unit * rate <= int64_max ->
  0 <= stop_ - start <= int64_max ->
  exists t sleepTime,
    history rate unit enableStatistics [WorkerBegin; WorkerAction start stop_]
      = Some (Ok (t, [EvSpawn; EvAction; EvPrintSleep sleepTime])) /\
    computeSleepTime (unit_value unit * rate) (stop_ - start) = Ok sleepTime /\
    workerThread_ t = Waiting (unit_value unit * rate) start sleepTime /\
    running_ t = true /\
    collector t = StatisticsCollector_init.
Proof.
  intros Hp He.
  assert (Hr : rate <> 0) by (intros ->; lia).
  unfold history. rewrite TimerTask_new_spawns by assumption.
  cbn [run step worker_begin workerThread_ with_worker app ratio_ rate_].
  rewrite full_sleep_time_exact by lia.
  cbn [worker_action workerThread_ with_worker].
  unfold cycle_begin, dur_sub.
  rewrite (checked_ok (stop_ - start)) by int64. cbn [bind].
  rewrite computeSleepTime_ok by assumption. cbn [bind].
  eexists _, (sleepTime_of (unit_value unit * rate) (stop_ - start)).
  split; [reflexivity |]. split; [reflexivity |].
  split; [reflexivity |]. split; reflexivity.
Qed.

Lemma first_cycle_witness :
  exists t,
    history 50 milliseconds true [WorkerBegin; WorkerAction 0 10000000]
      = Some (Ok (t, [EvSpawn; EvAction; EvPrintSleep 39950000])) /\
    workerThread_ t = Waiting 50000000 0 39950000.
Proof.
  destruct (first_cycle 50 milliseconds true 0 10000000)
    as (t & s & Hh & Hs & Hw & _).
  - vm_compute. split; [reflexivity | discriminate].
  - vm_compute. split; discriminate.
  - vm_compute in Hs. injection Hs as <-.
    exists t. split; [exact Hh | exact Hw].
Defined.

(** X7.  The test [rate_ != 0] of [init] does not exclude a period of
    zero: when [rate * unit] is a multiple of 2^64 the worker is created
    with a period of 0, and its first cycle in which the clock advances
    during the action divides by zero in [abs(sleepTime) % period]. *)
Theorem zero_period_divides_by_zero rate unit enableStatistics start stop_ :
  rate <> 0 ->
  (unit_value unit * rate) mod 2 ^ 64 = 0 ->
  0 < stop_ - start <= int64_max ->
  (exists t, history rate unit enableStatistics [WorkerBegin]
             = Some (Ok (t, [EvSpawn])) /\
             workerThread_ t = AtLoopHead 0 /\ running_ t = true) /\
  history rate unit enableStatistics [WorkerBegin; WorkerAction start stop_]
    = Some (Fault DivisionByZero).
Proof.
  intros Hr Hz He.
  assert (Hf : full_sleep_time unit rate = 0).
  { unfold full_sleep_time, wrap64. change two64 with (2 ^ 64). rewrite Hz. reflexivity. }
  unfold history. rewrite TimerTask_new_spawns by assumption.
  cbn [run step worker_begin workerThread_ with_worker app ratio_ rate_].
  rewrite Hf. split.
  - eexists. split; [reflexivity |]. split; reflexivity.
  - cbn [worker_action workerThread_ with_worker].
    unfold cycle_begin, dur_sub.
    rewrite (checked_ok (stop_ - start)) by int64. cbn [bind].
    unfold computeSleepTime, dur_sub, dur_abs.
    rewrite (checked_ok (0 - (stop_ - start))) by int64. cbn [bind].
    destruct (Z.ltb_spec (0 - (stop_ - start)) 0); [| lia].
    rewrite checked_ok by int64. reflexivity.
Qed.

Lemma zero_period_divides_by_zero_witness :
  history (2 ^ 61) microseconds true [WorkerBegin; WorkerAction 0 1000]
    = Some (Fault DivisionByZero).
Proof.
  apply (zero_period_divides_by_zero (2 ^ 61) microseconds true 0 1000).
  - vm_compute. discriminate.
  - vm_compute. reflexivity.
  - vm_compute. split; [reflexivity | discriminate].
Defined.

(** ** TimerTask: the collector along a history *)

Lemma restart_keeps inflight t t' evs :
  restart inflight t = Ok (t', evs) ->
  collector t' = collector t /\ statisticsEnabled t' = statisticsEnabled t /\
  rate_ t' = rate_ t /\ ratio_ t' = ratio_ t.
Proof.
  unfold restart. intros H.
  apply bind_ok in H. destruct H as ([t1 e1] & Hs & H).
  apply bind_ok in H. destruct H as ([t2 e2] & Hi & H).
  injection H as <- _.
  apply stop_result in Hs. apply init_result in Hi.
  destruct Hs as [[_ ->] | [_ ->]];
    destruct Hi as [(_ & -> & _) | (_ & _ & -> & _)]; cbn; auto.
Qed.

Lemma setRate_keeps rate unit imediate inflight t t' evs :
  setRate rate unit imediate inflight t = Ok (t', evs) ->
  collector t' = collector t /\ statisticsEnabled t' = statisticsEnabled t /\
  rate_ t' = rate /\ ratio_ t' = unit.
Proof.
  unfold setRate. destruct imediate; intros H.
  - apply restart_keeps in H. cbn in H. exact H.
  - injection H as <- _. cbn. auto.
Qed.

Lemma cycle_end_samples c full start now sleepTime c' :
  cycle_end c full start now sleepTime = Ok c' ->
  samples c' = wrap64 (samples c + 1).
Proof.
  unfold cycle_end, calcExecTimeError. intros H.
  destruct (dur_sub now start) as [x |]; [cbn [bind] in H | discriminate].
  destruct (dur_sub x full) as [y |]; [cbn [bind] in H | discriminate].
  destruct (dur_abs y) as [m |]; [cbn [bind] in H | discriminate].
  injection H as <-. destruct (exceedsTolerance x full); reflexivity.
Qed.

(** What a step does to the collector: only a completed wait changes it. *)
Lemma step_collector o t t' evs :
  step o t = Some (Ok (t', evs)) ->
  statisticsEnabled t' = statisticsEnabled t /\
  if is_timeout o
  then samples (collector t') = wrap64 (samples (collector t) + 1)
  else collector t' = collector t.
Proof.
  destruct o as [inflight | rate unit imediate inflight | | start stop_ | now];
    cbn [step is_timeout]; intros H.
  - injection H as H. apply stop_result in H.
    destruct H as [[_ ->] | [_ ->]]; cbn; auto.
  - injection H as H. apply setRate_keeps in H. tauto.
  - unfold worker_begin in H. destruct (workerThread_ t); try discriminate.
    injection H as <- _. cbn. auto.
  - unfold worker_action in H. destruct (workerThread_ t); try discriminate.
    injection H as H. apply bind_ok in H. destruct H as ([s e] & _ & H).
    injection H as <- _. cbn. auto.
  - unfold worker_timeout in H.
    destruct (workerThread_ t) as [| | | full start s]; try discriminate.
    destruct (running_ t); try discriminate.
    injection H as H. apply bind_ok in H. destruct H as (c & Hc & H).
    injection H as <- _. cbn. split; [reflexivity |].
    eapply cycle_end_samples; eassumption.
Qed.

Lemma run_samples ops : forall t out t' out',
  0 <= samples (collector t) <= uint64_max ->
  run ops t out = Some (Ok (t', out')) ->
  samples (collector t') = wrap64 (samples (collector t) + completed_cycles ops) /\
  statisticsEnabled t' = statisticsEnabled t.
Proof.
  unfold completed_cycles.
  induction ops as [| o ops IH]; intros t out t' out' Hs H; cbn [run] in H.
  - injection H as <- _. cbn [filter List.length Z.of_nat].
    rewrite Z.add_0_r, wrap64_small by assumption. auto.
  - destruct (step o t) as [[[t1 evs] | f] |] eqn:E; try discriminate.
    destruct (step_collector _ _ _ _ E) as [He Hc].
    cbn [filter]. destruct (is_timeout o).
    + destruct (IH t1 _ _ _ ltac:(rewrite Hc; apply wrap64_range) H) as [Hn He'].
      split; [| congruence].
      rewrite Hn, Hc, wrap64_add_l. cbn [List.length]. f_equal. lia.
    + destruct (IH t1 _ _ _ ltac:(rewrite Hc; exact Hs) H) as [Hn He'].
      split; [| congruence]. rewrite Hn, Hc. reflexivity.
Qed.

(** X8.  The collector counts the waits that ended without cancellation
    and nothing else: in every state of a history [samples] is the number
    of completed waits (modulo 2^64).  A cycle interrupted by [stop] is
    not counted, and neither [stop] nor [setRate] resets the statistics:
    after a restart the new worker goes on counting. *)
Theorem samples_count_completed_cycles rate unit enableStatistics ops t out :
  history rate unit enableStatistics ops = Some (Ok (t, out)) ->
  samples (collector t) = wrap64 (completed_cycles ops) /\
  statisticsEnabled t = enableStatistics.
Proof.
  unfold history, TimerTask_new. intros H.
  destruct (init _) as [[t0 e0] |] eqn:Ei; [| discriminate].
  apply init_result in Ei.
  assert (Hc : collector t0 = StatisticsCollector_init /\
               statisticsEnabled t0 = enableStatistics).
  { destruct Ei as [(_ & -> & _) | (_ & _ & -> & _)]; cbn; auto. }
  destruct Hc as [Hc He].
  apply run_samples in H; [| rewrite Hc; cbn; int64].
  rewrite Hc in H. cbn [samples StatisticsCollector_init] in H.
  rewrite Z.add_0_l in H. destruct H as [Hn Hs]. split; congruence.
Qed.

Lemma samples_count_completed_cycles_witness :
  exists t out,
    history 50 milliseconds false
      [WorkerBegin; WorkerAction 0 10000000; WorkerTimeout 50000100;
       WorkerAction 50000200 60000000;
       OpSetRate 20 milliseconds true (0, 0); WorkerBegin;
       WorkerAction 70000000 71000000; WorkerTimeout 90000100]
    = Some (Ok (t, out)) /\
    samples (collector t) = 2.
Proof.
  eexists. eexists. split; [vm_compute; reflexivity |].
  eapply (samples_count_completed_cycles 50 milliseconds false
            [WorkerBegin; WorkerAction 0 10000000; WorkerTimeout 50000100;
             WorkerAction 50000200 60000000;
             OpSetRate 20 milliseconds true (0, 0); WorkerBegin;
             WorkerAction 70000000 71000000; WorkerTimeout 90000100]).
  vm_compute. reflexivity.
Defined.

(** ** TimerTask: [setRate] with [imediate = false] *)

Lemma same_but_rate_refl t : same_but_rate t t.
Proof. unfold same_but_rate. auto. Qed.

Ltac same_step :=
  intros H; injection H as <- <-; eexists; split; [reflexivity |];
  unfold same_but_rate; cbn; auto.

Lemma step_same_but_rate o t u t' evs :
  reads_rate o = false -> is_deferred_setRate o = false ->
  same_but_rate t u ->
  step o t = Some (Ok (t', evs)) ->
  exists u', step o u = Some (Ok (u', evs)) /\ same_but_rate t' u'.
Proof.
  intros Hr Hd Hsame.
  destruct t as [r1 q1 c1 s1 b1 w1], u as [r2 q2 c2 s2 b2 w2].
  unfold same_but_rate in Hsame. cbn in Hsame.
  destruct Hsame as (<- & <- & <- & <-).
  destruct o as [inflight | rate unit [|] inflight | | start stop_ | now];
    try discriminate; cbn [step].
  - unfold stop, stop_worker. cbn [workerThread_].
    destruct w1 as [| | full | full start s]; cbn [bind with_worker statisticsEnabled
      collector rate_ ratio_ running_ workerThread_].
    + destruct s1; [destruct (printResults c1 milliseconds); cbn [bind] |];
        try discriminate; same_step.
    + discriminate.
    + destruct (cycle_begin full (fst inflight) (snd inflight)) as [[st e] |];
        cbn [bind with_worker statisticsEnabled collector rate_ ratio_ running_
             workerThread_]; [| discriminate].
      destruct s1; [destruct (printResults c1 milliseconds); cbn [bind] |];
        try discriminate; same_step.
    + destruct s1; [destruct (printResults c1 milliseconds); cbn [bind] |];
        try discriminate; same_step.
  - unfold worker_action. cbn [workerThread_].
    destruct w1 as [| | full |]; try discriminate.
    destruct (cycle_begin full start stop_) as [[st e] |]; cbn [bind];
      [| discriminate].
    same_step.
  - unfold worker_timeout. cbn [workerThread_ running_ collector].
    destruct w1 as [| | | full start s]; try discriminate.
    destruct b1; try discriminate.
    destruct (cycle_end c1 full start now s); cbn [bind]; [| discriminate].
    same_step.
Qed.

Lemma run_same_but_rate ops : forall t u out t' out',
  forallb (fun o => negb (reads_rate o)) ops = true ->
  same_but_rate t u ->
  run ops t out = Some (Ok (t', out')) ->
  exists u',
    run (filter (fun o => negb (is_deferred_setRate o)) ops) u out
      = Some (Ok (u', out')) /\
    same_but_rate t' u'.
Proof.
  induction ops as [| o ops IH]; intros t u out t' out' Hall Hsame H.
  - cbn in H |- *. injection H as <- <-. eauto.
  - cbn [forallb] in Hall. apply andb_true_iff in Hall. destruct Hall as [Ho Hall].
    apply negb_true_iff in Ho.
    cbn [run] in H.
    destruct (step o t) as [[[t1 evs] | f] |] eqn:E; try discriminate.
    cbn [filter]. destruct (is_deferred_setRate o) eqn:Ed; cbn [negb].
    + destruct o as [| rate unit [|] inflight | | |]; try discriminate.
      cbn [step setRate] in E. injection E as <- <-.
      rewrite app_nil_r in H.
      apply (IH (with_rate t rate unit) u out t' out' Hall); [| exact H].
      destruct Hsame as (H1 & H2 & H3 & H4). unfold same_but_rate. cbn. auto.
    + destruct (step_same_but_rate _ _ _ _ _ Ho Ed Hsame E) as (u1 & Eu & Hs1).
      cbn [run]. rewrite Eu. apply (IH t1 u1 _ t' out' Hall Hs1 H).
Qed.

(** X9.  [setRate] with [imediate = false] only stores the rate and the
    unit.  As long as no worker is started and no [setRate] with
    [imediate = true] is called, the instance behaves as if the call had
    not been made: the same history without these calls gives the same
    output, the same collector, flag and worker, and so the same period. *)
Theorem deferred_setRate_is_ignored ops t out t' out' :
  forallb (fun o => negb (reads_rate o)) ops = true ->
  run ops t out = Some (Ok (t', out')) ->
  exists u',
    run (filter (fun o => negb (is_deferred_setRate o)) ops) t out
      = Some (Ok (u', out')) /\
    collector u' = collector t' /\
    statisticsEnabled u' = statisticsEnabled t' /\
    running_ u' = running_ t' /\
    workerThread_ u' = workerThread_ t'.
Proof.
  intros Hall H.
  destruct (run_same_but_rate ops t t out t' out' Hall (same_but_rate_refl t) H)
    as (u' & Hrun & H1 & H2 & H3 & H4).
  exists u'. split; [exact Hrun |]. auto.
Qed.

Lemma deferred_setRate_is_ignored_witness :
  exists t t' u' out',
    history 50 milliseconds false [WorkerBegin] = Some (Ok (t, [EvSpawn])) /\
    run [OpSetRate 1 seconds false (0, 0); WorkerAction 0 10000000;
         WorkerTimeout 50000100; OpSetRate 7 hours false (0, 0);
         WorkerAction 50000200 51000000] t [EvSpawn] = Some (Ok (t', out')) /\
    run [WorkerAction 0 10000000; WorkerTimeout 50000100;
         WorkerAction 50000200 51000000] t [EvSpawn] = Some (Ok (u', out')) /\
    workerThread_ u' = workerThread_ t'.
Proof.
  pose (t := with_worker
               {| rate_ := 50; ratio_ := milliseconds;
                  collector := StatisticsCollector_init;
                  statisticsEnabled := false; running_ := false;
                  workerThread_ := Spawned |} true (AtLoopHead 50000000)).
  pose (ops := [OpSetRate 1 seconds false (0, 0); WorkerAction 0 10000000;
                WorkerTimeout 50000100; OpSetRate 7 hours false (0, 0);
                WorkerAction 50000200 51000000]).
  destruct (run ops t [EvSpawn]) as [[[t' out'] | f] |] eqn:E;
    [| vm_compute in E; discriminate | vm_compute in E; discriminate].
  destruct (deferred_setRate_is_ignored ops t [EvSpawn] t' out' eq_refl E)
    as (u' & Hrun & _ & _ & _ & Hw).
  exists t, t', u', out'.
  split; [reflexivity |]. split; [exact E |]. split; [exact Hrun | exact Hw].
Defined.

(** ** TimerTask: the destructor *)



(** ** StatisticsCollector: consistency of the statistics *)

Lemma list_sum_nonneg l :
  Forall (fun e => 0 <= e) l -> 0 <= list_sum l.
Proof.
  unfold list_sum. induction 1 as [| e l He _ IH]; cbn [fold_right]; lia.
Qed.

Lemma list_max_le_sum l :
  Forall (fun e => 0 <= e) l -> list_max l <= list_sum l.
Proof.
  induction 1 as [| e l He Hl IH]; [unfold list_max, list_sum; cbn; lia |].
  pose proof (list_sum_nonneg l Hl) as Hs.
  unfold list_max, list_sum in *. cbn [fold_right]. lia.
Qed.

Lemma filter_length_le {A} (f : A -> bool) l :
  (List.length (filter f l) <= List.length l)%nat.
Proof.
  induction l as [| a l IH]; cbn [filter List.length]; [lia |].
  destruct (f a); cbn [List.length]; lia.
Qed.

(** X13.  As long as neither the number of calls nor the sum of the error
    samples has wrapped, the statistics of a collector fed by
    [calcExecTimeError] are consistent with each other: the tolerance was
    exceeded at most once per sample, and the largest error sample is at
    most the sum of all of them, which is at most the number of samples
    times the largest. *)
Theorem statistics_consistent calls :
  Forall call_in_range calls ->
  Z.of_nat (List.length calls) <= uint64_max ->
  list_sum (map error_of calls) <= uint64_max ->
  exists c,
    recordCycles calls StatisticsCollector_init = Ok c /\
    toleraceExcessionCount c <= samples c /\
    maxVariance c <= acummulation c <= samples c * maxVariance c.
Proof.
  intros Hall Hn Hsum.
  destruct (recordCycles_fields calls _ Hall StatisticsCollector_init_in_range)
    as (c & Hrun & _ & Hs & Ha & Hmax & _ & Ht & _).
  cbn [StatisticsCollector_init samples acummulation maxVariance
       toleraceExcessionCount] in *.
  rewrite Z.add_0_l in Hs, Ha, Ht.
  pose proof (list_sum_errors_nonneg calls Hall) as Hpos.
  pose proof (filter_length_le exceeds_of calls) as Hf.
  rewrite wrap64_small in Hs by lia. rewrite wrap64_small in Ha by lia.
  rewrite wrap64_small in Ht by lia.
  pose proof (list_max_nonneg (map error_of calls)) as Hm0.
  rewrite Z.max_l in Hmax by assumption.
  exists c. split; [exact Hrun |]. rewrite Hs, Ha, Hmax, Ht.
  split; [lia |]. split.
  - apply list_max_le_sum. apply Forall_map.
    eapply Forall_impl; [| exact Hall].
    intros call Hc. apply (error_of_range call Hc).
  - pose proof (list_sum_le_max (map error_of calls)) as Hup.
    rewrite length_map in Hup. exact Hup.
Qed.

Lemma statistics_consistent_witness :
  exists c,
    recordCycles [(0, 60000000, 50000000); (0, 49000000, 50000000)]
      StatisticsCollector_init = Ok c /\
    toleraceExcessionCount c <= samples c /\
    maxVariance c <= acummulation c <= samples c * maxVariance c.
Proof.
  apply (statistics_consistent [(0, 60000000, 50000000); (0, 49000000, 50000000)]).
  - repeat constructor; vm_compute; discriminate.
  - vm_compute. discriminate.
  - vm_compute. discriminate.
Defined.

(** X14.  The error sample counts both directions but the tolerance test
    only one: a cycle that ends early or on time (periods below 2^48 ns)
    adds [expected - (end - start)] to [acummulation] and is never counted
    in [toleraceExcessionCount], however early it ends. *)
Theorem early_cycle_is_never_exceeded c start end_ expected :
  0 <= end_ - start <= expected ->
  expected < 2 ^ 48 ->
  exists c',
    calcExecTimeError c start end_ expected = Ok c' /\
    acummulation c' = wrap64 (acummulation c + (expected - (end_ - start))) /\
    samples c' = wrap64 (samples c + 1) /\
    toleraceExcessionCount c' = toleraceExcessionCount c.
Proof.
  intros He Hx.
  change (2 ^ 48) with 281474976710656 in Hx.
  destruct (calcExecTimeError_fields c start end_ expected)
    as (c' & Hc & Hs & Ha & _ & _ & _ & Ht); try int64.
  exists c'. split; [exact Hc |].
  split; [rewrite Ha; f_equal; lia |]. split; [exact Hs |].
  rewrite Ht, exceedsTolerance_exact.
  - destruct (Z.ltb_spec (21 * expected) (20 * (end_ - start))); [lia | reflexivity].
  - change (2 ^ 48) with 281474976710656. lia.
  - change (2 ^ 53) with 9007199254740992. lia.
Qed.

Lemma early_cycle_is_never_exceeded_witness :
  exists c',
    calcExecTimeError StatisticsCollector_init 0 1000000 50000000 = Ok c' /\
    acummulation c' = 49000000 /\ toleraceExcessionCount c' = 0.
Proof.
  destruct (early_cycle_is_never_exceeded StatisticsCollector_init 0 1000000 50000000)
    as (c' & Hc & Ha & _ & Ht).
  - vm_compute. split; discriminate.
  - vm_compute. reflexivity.
  - exists c'. split; [exact Hc |]. split; [exact Ha | exact Ht].
Defined.

(** ** TimerTask: one worker thread at a time *)

Lemma live_workers_app a b : live_workers (a ++ b) = live_workers a + live_workers b.
Proof. unfold live_workers. rewrite !filter_app, !length_app, !Nat2Z.inj_add. lia. Qed.

Lemma cycle_begin_events full start stop_ sleepTime evs :
  cycle_begin full start stop_ = Ok (sleepTime, evs) ->
  evs = [EvAction; EvPrintSleep sleepTime].
Proof.
  unfold cycle_begin. intros H.
  apply bind_ok in H. destruct H as (e & _ & H).
  apply bind_ok in H. destruct H as (s & _ & H).
  injection H as <- <-. reflexivity.
Qed.

Lemma stop_live inflight t t' evs :
  stop inflight t = Ok (t', evs) ->
  workerThread_ t' = NoThread /\
  live_workers evs = - thread_count (workerThread_ t).
Proof.
  unfold stop. intros H.
  apply bind_ok in H. destruct H as ([t1 e1] & Hw & H).
  assert (H1 : workerThread_ t1 = NoThread /\
               live_workers e1 = - thread_count (workerThread_ t)).
  { unfold stop_worker in Hw.
    destruct (workerThread_ t) as [| | full | full start s] eqn:Ew.
    - injection Hw as <- <-. auto.
    - discriminate.
    - apply bind_ok in Hw. destruct Hw as ([s e] & Hb & Hw).
      apply cycle_begin_events in Hb. subst e.
      injection Hw as <- <-. split; reflexivity.
    - injection Hw as <- <-. split; reflexivity. }
  destruct H1 as [Hn Hl].
  destruct (statisticsEnabled t1).
  - apply bind_ok in H. destruct H as (r & _ & H). injection H as <- <-.
    split; [exact Hn |]. rewrite live_workers_app, Hl. cbn. lia.
  - injection H as <- <-. auto.
Qed.

Lemma init_live t t' evs :
  init t = Ok (t', evs) ->
  live_workers evs = thread_count (workerThread_ t') - thread_count (workerThread_ t).
Proof.
  intros H. apply init_result in H.
  destruct H as [(_ & -> & ->) | (_ & Hw & -> & ->)].
  - cbn. lia.
  - rewrite Hw. reflexivity.
Qed.

Lemma step_live o t t' evs :
  step o t = Some (Ok (t', evs)) ->
  live_workers evs = thread_count (workerThread_ t') - thread_count (workerThread_ t).
Proof.
  destruct o as [inflight | rate unit imediate inflight | | start stop_ | now];
    cbn [step]; intros H.
  - injection H as H. apply stop_live in H. destruct H as [-> ->]. cbn. lia.
  - injection H as H. unfold setRate in H. destruct imediate.
    + unfold restart in H.
      apply bind_ok in H. destruct H as ([t1 e1] & Hs & H).
      apply bind_ok in H. destruct H as ([t2 e2] & Hi & H).
      injection H as <- <-.
      apply stop_live in Hs. apply init_live in Hi.
      destruct Hs as [Hn Hl]. cbn [workerThread_ with_rate] in Hl.
      rewrite live_workers_app, Hl, Hi, Hn. cbn. lia.
    + injection H as <- <-. cbn. lia.
  - unfold worker_begin in H. destruct (workerThread_ t); try discriminate.
    injection H as <- <-. reflexivity.
  - unfold worker_action in H.
    destruct (workerThread_ t) as [| | full |]; try discriminate.
    injection H as H. apply bind_ok in H. destruct H as ([s e] & Hb & H).
    apply cycle_begin_events in Hb. subst e. injection H as <- <-. reflexivity.
  - unfold worker_timeout in H.
    destruct (workerThread_ t) as [| | | full start s]; try discriminate.
    destruct (running_ t); try discriminate.
    injection H as H. apply bind_ok in H. destruct H as (c & _ & H).
    injection H as <- <-. reflexivity.
Qed.

Lemma run_live ops : forall t out t' out',
  run ops t out = Some (Ok (t', out')) ->
  live_workers out' - thread_count (workerThread_ t')
  = live_workers out - thread_count (workerThread_ t).
Proof.
  induction ops as [| o ops IH]; intros t out t' out' H; cbn [run] in H.
  - injection H as <- <-. reflexivity.
  - destruct (step o t) as [[[t1 evs] | f] |] eqn:E; try discriminate.
    apply IH in H. apply step_live in E. rewrite live_workers_app in H. lia.
Qed.

(** X15.  An instance never has two worker threads: in every state of a
    history the threads created so far less the threads joined so far is
    1 when [workerThread_] is joinable and 0 when it is not. *)
Theorem one_worker_at_a_time rate unit enableStatistics ops t out :
  history rate unit enableStatistics ops = Some (Ok (t, out)) ->
  live_workers out = thread_count (workerThread_ t) /\
  0 <= live_workers out <= 1.
Proof.
  unfold history, TimerTask_new. intros H.
  destruct (init _) as [[t0 e0] |] eqn:Ei; [| discriminate].
  apply init_live in Ei. cbn [workerThread_ thread_count joinable] in Ei.
  apply run_live in H.
  assert (Hl : live_workers out = thread_count (workerThread_ t)) by lia.
  split; [exact Hl |]. rewrite Hl. unfold thread_count.
  destruct (joinable (workerThread_ t)); lia.
Qed.

Lemma one_worker_at_a_time_witness :
  exists t out,
    history 50 milliseconds false
      [WorkerBegin; WorkerAction 0 10000000;
       OpSetRate 20 milliseconds true (0, 0); WorkerBegin;
       OpSetRate 10 milliseconds true (0, 5)]
    = Some (Ok (t, out)) /\
    List.length (filter is_spawn out) = 3%nat /\
    List.length (filter is_join out) = 2%nat /\
    live_workers out = thread_count (workerThread_ t).
Proof.
  eexists. eexists. split; [vm_compute; reflexivity |].
  split; [reflexivity |]. split; [reflexivity |].
  refine (proj1 (one_worker_at_a_time 50 milliseconds false
                   [WorkerBegin; WorkerAction 0 10000000;
                    OpSetRate 20 milliseconds true (0, 0); WorkerBegin;
                    OpSetRate 10 milliseconds true (0, 5)] _ _ _)).
  vm_compute. reflexivity.
Defined.

(** ** TimerTask: what the operations never end in *)

Lemma bind_fault {A B} (m : outcome A) (k : A -> outcome B) f :
  bind m k = Fault f -> m = Fault f \/ exists a, m = Ok a /\ k a = Fault f.
Proof.
  destruct m as [a |]; cbn; [eauto |].
  intros H. left. injection H as <-. reflexivity.
Qed.

Lemma checked_fault z f : checked z = Fault f -> f = SignedOverflow.
Proof. unfold checked. destruct (in_int64 z); congruence. Qed.

Lemma dur_rem_fault a b f : dur_rem a b = Fault f -> f <> Terminate.
Proof.
  unfold dur_rem. destruct (b =? 0); [congruence |].
  destruct ((a =? int64_min) && (b =? -1)); congruence.
Qed.

Lemma computeSleepTime_fault full elapsed f :
  computeSleepTime full elapsed = Fault f -> f <> Terminate.
Proof.
  unfold computeSleepTime, dur_sub, dur_abs. intros H.
  apply bind_fault in H. destruct H as [H | (s & _ & H)].
  { apply checked_fault in H. congruence. }
  apply bind_fault in H. destruct H as [H | (s' & _ & H)].
  - destruct (s <? 0); [| discriminate].
    apply bind_fault in H. destruct H as [H | (a & _ & H)].
    { apply checked_fault in H. congruence. }
    apply bind_fault in H. destruct H as [H | (r & _ & H)].
    { eapply dur_rem_fault; eassumption. }
    apply checked_fault in H. congruence.
  - apply checked_fault in H. congruence.
Qed.

Lemma cycle_begin_fault full start stop_ f :
  cycle_begin full start stop_ = Fault f -> f <> Terminate.
Proof.
  unfold cycle_begin, dur_sub. intros H.
  apply bind_fault in H. destruct H as [H | (e & _ & H)].
  { apply checked_fault in H. congruence. }
  apply bind_fault in H. destruct H as [H | (s & _ & H)]; [| discriminate].
  eapply computeSleepTime_fault; eassumption.
Qed.

Lemma calcExecTimeError_fault c start end_ expected f :
  calcExecTimeError c start end_ expected = Fault f -> f = SignedOverflow.
Proof.
  unfold calcExecTimeError, dur_sub, dur_abs. intros H.
  apply bind_fault in H. destruct H as [H | (x & _ & H)].
  { eapply checked_fault; eassumption. }
  apply bind_fault in H. destruct H as [H | (y & _ & H)].
  { eapply checked_fault; eassumption. }
  apply bind_fault in H. destruct H as [H | (m & _ & H)]; [| discriminate].
  eapply checked_fault; eassumption.
Qed.

Lemma printResults_fault c u f : printResults c u = Fault f -> f = DivisionByZero.
Proof.
  unfold printResults, udiv. destruct (samples c =? 0); cbn; congruence.
Qed.

Lemma stop_fault inflight t f : stop inflight t = Fault f -> f <> Terminate.
Proof.
  unfold stop. intros H.
  apply bind_fault in H. destruct H as [H | ([t1 e1] & _ & H)].
  - unfold stop_worker in H.
    destruct (workerThread_ t) as [| | full |]; try discriminate.
    + congruence.
    + apply bind_fault in H. destruct H as [H | ([s e] & _ & H)]; [| discriminate].
      eapply cycle_begin_fault; eassumption.
  - destruct (statisticsEnabled t1); [| discriminate].
    apply bind_fault in H. destruct H as [H | (r & _ & H)]; [| discriminate].
    apply printResults_fault in H. congruence.
Qed.

Lemma step_fault o t f : step o t = Some (Fault f) -> f <> Terminate.
Proof.
  destruct o as [inflight | rate unit imediate inflight | | start stop_ | now];
    cbn [step]; intros H.
  - injection H as H. eapply stop_fault; eassumption.
  - injection H as H. unfold setRate in H.
    destruct imediate; [| discriminate].
    unfold restart in H.
    apply bind_fault in H. destruct H as [H | ([t1 e1] & Hs & H)].
    { eapply stop_fault; eassumption. }
    apply bind_fault in H. destruct H as [H | ([t2 e2] & _ & H)]; [| discriminate].
    apply stop_live in Hs. destruct Hs as [Hn _].
    unfold init in H. rewrite Hn in H. cbn [joinable] in H.
    destruct (rate_ t1 =? 0); discriminate.
  - unfold worker_begin in H. destruct (workerThread_ t); discriminate.
  - unfold worker_action in H.
    destruct (workerThread_ t) as [| | full |]; try discriminate.
    injection H as H.
    apply bind_fault in H. destruct H as [H | ([s e] & _ & H)]; [| discriminate].
    eapply cycle_begin_fault; eassumption.
  - unfold worker_timeout in H.
    destruct (workerThread_ t) as [| | | full start s]; try discriminate.
    destruct (running_ t); try discriminate.
    injection H as H.
    apply bind_fault in H. destruct H as [H | (c & _ & H)]; [| discriminate].
    unfold cycle_end in H.
    apply bind_fault in H. destruct H as [H | (c1 & _ & H)]; [| discriminate].
    apply calcExecTimeError_fault in H. congruence.
Qed.

Lemma run_fault ops : forall t out f,
  run ops t out = Some (Fault f) -> f <> Terminate.
Proof.
  induction ops as [| o ops IH]; intros t out f H; cbn [run] in H.
  - discriminate.
  - destruct (step o t) as [[[t1 evs] | f1] |] eqn:E; try discriminate.
    + eapply IH; eassumption.
    + injection H as <-. eapply step_fault; eassumption.
Qed.

(** X16.  No history of an instance ends in [std::terminate] through
    [init]: the constructor starts from an empty thread object, and
    [restart] reaches [init] only after a [stop] that has joined the
    worker, so a joinable [std::thread] is never assigned to.  (The
    destructor is the operation that can terminate the program.) *)
Theorem init_never_terminates rate unit enableStatistics ops :
  history rate unit enableStatistics ops <> Some (Fault Terminate).
Proof.
  unfold history, TimerTask_new.
  destruct (init _) as [[t0 e0] | f] eqn:Ei.
  - intros H. apply run_fault in H. congruence.
  - unfold init in Ei. cbn [rate_ workerThread_ joinable] in Ei.
    destruct (rate =? 0); discriminate.
Qed.
